(** * SimpleCom: a hand-written COM server in C

    Shallow embedding of [src/tutorials/ComSandboxDemo/SimpleCom/SimpleCom.c]:
    the reference-counted Calculator object, the static class factory and the
    module entry points, followed by the properties claimed of them.

    Conventions of the embedding.
    - A C function that reads or writes memory becomes a function from the
      heap (and its arguments) to [option] of the new heap and the returned
      value; [None] stands for undefined behaviour (a call through a pointer
      that does not address a live object).
    - An out-parameter [void** ppv] is passed as the current content of the
      cell and returned as its content after the call, so that a path that
      never writes [*ppv] visibly returns what it was given.
    - A 32-bit integer is a [Z] with the wrap-around written out. *)

From Stdlib Require Import ZArith Lia List.
From stdpp Require Import base decidable option gmap.

Local Open Scope Z_scope.

(** ** The platform: what <windows.h> and <objbase.h> give the program *)

Module Win32.

(** [LONG] and [int] are 32-bit two's complement, [ULONG] is 32-bit
    unsigned. *)
Definition LONG_MIN : Z := - 2 ^ 31.
Definition LONG_MAX : Z := 2 ^ 31 - 1.

Definition to_LONG (x : Z) : Z := (x + 2 ^ 31) mod 2 ^ 32 - 2 ^ 31.
Definition to_ULONG (x : Z) : Z := x mod 2 ^ 32.
Definition to_int (x : Z) : Z := to_LONG x.

Definition is_LONG (x : Z) : Prop := LONG_MIN <= x <= LONG_MAX.

(** [InterlockedIncrement] / [InterlockedDecrement]: the new value of the
    32-bit variable, which is also what the call returns. *)
Definition InterlockedIncrement (v : Z) : Z := to_LONG (v + 1).
Definition InterlockedDecrement (v : Z) : Z := to_LONG (v - 1).

(** [HRESULT] is a [LONG]; the constants are those of <winerror.h>. *)
Definition HRESULT : Type := Z.

Definition S_OK : HRESULT := 0.
Definition S_FALSE : HRESULT := 1.
Definition E_NOINTERFACE : HRESULT := to_LONG 0x80004002.
Definition E_OUTOFMEMORY : HRESULT := to_LONG 0x8007000E.
Definition CLASS_E_NOAGGREGATION : HRESULT := to_LONG 0x80040110.
Definition CLASS_E_CLASSNOTAVAILABLE : HRESULT := to_LONG 0x80040111.

(** The [SUCCEEDED] and [FAILED] macros test the sign bit. *)
Definition SUCCEEDED (hr : HRESULT) : bool := 0 <=? hr.
Definition FAILED (hr : HRESULT) : bool := hr <? 0.

Definition TRUE : Z := 1.

(** A [GUID] is a 32-bit word, two 16-bit words and eight bytes. *)
Record GUID : Type := mkGUID {
  Data1 : Z;
  Data2 : Z;
  Data3 : Z;
  Data4 : list Z
}.

#[global] Instance GUID_eq_dec : EqDecision GUID.
Proof. solve_decision. Defined.

(** [IsEqualGUID] compares the sixteen bytes of the two identifiers. *)
Definition IsEqualGUID (a b : GUID) : bool := bool_decide (a = b).

(** {00000000-0000-0000-C000-000000000046} *)
Definition IID_IUnknown : GUID :=
  mkGUID 0x00000000 0x0000 0x0000 [0xC0; 0x00; 0x00; 0x00; 0x00; 0x00; 0x00; 0x46].

(** {00000001-0000-0000-C000-000000000046} *)
Definition IID_IClassFactory : GUID :=
  mkGUID 0x00000001 0x0000 0x0000 [0xC0; 0x00; 0x00; 0x00; 0x00; 0x00; 0x00; 0x46].

End Win32.

(** ** The program *)

Module SimpleCom.
Import Win32.

(** CLSID: {11111111-2222-3333-4444-555555555555} *)
Definition CLSID_SimpleCalculator : GUID :=
  mkGUID 0x11111111 0x2222 0x3333 [0x44; 0x44; 0x55; 0x55; 0x55; 0x55; 0x55; 0x55].

(** IID: {E1234567-ABCD-1234-EF12-0123456789AB} *)
Definition IID_ICalculator : GUID :=
  mkGUID 0xE1234567 0xABCD 0x1234 [0xEF; 0x12; 0x01; 0x23; 0x45; 0x67; 0x89; 0xAB].

(** The two static dispatch tables.  An object stores the address of its
    table in [lpVtbl]; the tables themselves are the [slot_] functions
    below. *)
Inductive vtbl : Type :=
| CalculatorVtbl
| ClassFactoryVtbl.

#[global] Instance vtbl_eq_dec : EqDecision vtbl.
Proof. solve_decision. Defined.

(** typedef struct { MyCalculatorVtbl* lpVtbl; long count; } SimpleCalculator; *)
Record SimpleCalculator : Type := mkSimpleCalculator {
  lpVtbl : vtbl;
  count : Z
}.

(** typedef struct { MyClassFactoryVtbl* lpVtbl; } SimpleClassFactoryStruct; *)
Record SimpleClassFactoryStruct : Type := mkSimpleClassFactoryStruct {
  factory_lpVtbl : vtbl
}.

(** static SimpleClassFactoryStruct SimpleClassFactory = { &ClassFactoryVtbl }; *)
Definition SimpleClassFactory : SimpleClassFactoryStruct :=
  mkSimpleClassFactoryStruct ClassFactoryVtbl.

(** Pointers: null, the address of the static factory, a block handed out
    by [malloc], or an address that belongs to the host (an outer object
    offered for aggregation, for instance). *)
Inductive ptr : Type :=
| NULL
| addr_SimpleClassFactory
| HeapPtr (l : positive)
| HostPtr (a : positive).

#[global] Instance ptr_eq_dec : EqDecision ptr.
Proof. solve_decision. Defined.

(** The [malloc] heap.  Every block the program allocates holds a
    [SimpleCalculator]. *)
Abbreviation Heap := (gmap positive SimpleCalculator).

(** Reading [this->lpVtbl] with [this] taken as an [IUnknown] pointer. *)
Definition load_lpVtbl (h : Heap) (this : ptr) : option vtbl :=
  match this with
  | HeapPtr l => lpVtbl <$> h !! l
  | addr_SimpleClassFactory => Some (factory_lpVtbl SimpleClassFactory)
  | NULL | HostPtr _ => None
  end.

(** *** 1. COM object (the Calculator) *)

(** ULONG AddRef(void* this):
    return InterlockedIncrement(&this->count);
    with [this] cast to a [SimpleCalculator] pointer. *)
Definition AddRef (h : Heap) (this : ptr) : option (Heap * Z) :=
  match this with
  | HeapPtr l =>
      o ← h !! l;
      let c := InterlockedIncrement (count o) in
      Some (<[l := mkSimpleCalculator (lpVtbl o) c]> h, to_ULONG c)
  | _ => None
  end.

(** ULONG Release(void* this):
    ULONG count = InterlockedDecrement(&this->count);
    if (count == 0) free(this);
    return count; *)
Definition Release (h : Heap) (this : ptr) : option (Heap * Z) :=
  match this with
  | HeapPtr l =>
      o ← h !! l;
      let c := InterlockedDecrement (count o) in
      let h1 := <[l := mkSimpleCalculator (lpVtbl o) c]> h in
      let count := to_ULONG c in
      Some (if count =? 0 then delete l h1 else h1, count)
  | _ => None
  end.

(** int Add(void* this, int a, int b): return a + b;
    The source does not test the sum for overflow; the result is the sum as
    the 32-bit add instruction leaves it, that is, wrapped into [int]. *)
Definition Add (h : Heap) (this : ptr) (a b : Z) : option (Heap * Z) :=
  Some (h, to_int (a + b)).

(** *** 2. Class factory: reference counting *)

(** ULONG Factory_AddRef(void* this) { return 2; } *)
Definition Factory_AddRef (h : Heap) (this : ptr) : option (Heap * Z) :=
  Some (h, 2).

(** ULONG Factory_Release(void* this) { return 1; } *)
Definition Factory_Release (h : Heap) (this : ptr) : option (Heap * Z) :=
  Some (h, 1).

(** The [AddRef] and [Release] slots of the two tables:
    CalculatorVtbl = { QueryInterface, AddRef, Release, Add, GetInfo },
    ClassFactoryVtbl = { Factory_QueryInterface, Factory_AddRef,
    Factory_Release, Factory_CreateInstance, Factory_LockServer }. *)
Definition slot_AddRef (v : vtbl) : Heap → ptr → option (Heap * Z) :=
  match v with
  | CalculatorVtbl => AddRef
  | ClassFactoryVtbl => Factory_AddRef
  end.

Definition slot_Release (v : vtbl) : Heap → ptr → option (Heap * Z) :=
  match v with
  | CalculatorVtbl => Release
  | ClassFactoryVtbl => Factory_Release
  end.

(** HRESULT QueryInterface(void* this, REFIID riid, void** ppv) *)
Definition QueryInterface (h : Heap) (this : ptr) (riid : GUID) (ppv : ptr)
  : option (Heap * HRESULT * ptr) :=
  if IsEqualGUID riid IID_IUnknown || IsEqualGUID riid IID_ICalculator then
    (* *ppv = this; this->lpVtbl->AddRef(this); return S_OK; *)
    v ← load_lpVtbl h this;
    '(h', _) ← slot_AddRef v h this;
    Some (h', S_OK, this)
  else
    (* *ppv = NULL; return E_NOINTERFACE; *)
    Some (h, E_NOINTERFACE, NULL).

(** HRESULT Factory_QueryInterface(void* this, REFIID riid, void** ppv) *)
Definition Factory_QueryInterface (h : Heap) (this : ptr) (riid : GUID) (ppv : ptr)
  : option (Heap * HRESULT * ptr) :=
  if IsEqualGUID riid IID_IUnknown || IsEqualGUID riid IID_IClassFactory then
    (* *ppv = this; return S_OK; *)
    Some (h, S_OK, this)
  else
    (* *ppv = NULL; return E_NOINTERFACE; *)
    Some (h, E_NOINTERFACE, NULL).

Definition slot_QueryInterface (v : vtbl)
  : Heap → ptr → GUID → ptr → option (Heap * HRESULT * ptr) :=
  match v with
  | CalculatorVtbl => QueryInterface
  | ClassFactoryVtbl => Factory_QueryInterface
  end.

Section Allocator.

(** The C library allocator: on a given heap [malloc] either fails
    (returns a null pointer) or hands out a block. *)
Variable malloc : Heap → option positive.

(** The object as [Factory_CreateInstance] initialises it:
    obj->lpVtbl = &CalculatorVtbl; obj->count = 1; *)
Definition new_SimpleCalculator : SimpleCalculator :=
  mkSimpleCalculator CalculatorVtbl 1.

(** HRESULT Factory_CreateInstance(void* this, IUnknown* pUnkOuter,
                                   REFIID riid, void** ppv) *)
Definition Factory_CreateInstance
    (h : Heap) (this pUnkOuter : ptr) (riid : GUID) (ppv : ptr)
  : option (Heap * HRESULT * ptr) :=
  if bool_decide (pUnkOuter ≠ NULL) then Some (h, CLASS_E_NOAGGREGATION, ppv)
  else
    match malloc h with
    | None => Some (h, E_OUTOFMEMORY, ppv)
    | Some l =>
        let obj := HeapPtr l in
        let h0 := <[l := new_SimpleCalculator]> h in
        (* HRESULT hr = obj->lpVtbl->QueryInterface(obj, riid, ppv); *)
        v ← load_lpVtbl h0 obj;
        '(h1, hr, ppv') ← slot_QueryInterface v h0 obj riid ppv;
        (* obj->lpVtbl->Release(obj); *)
        v' ← load_lpVtbl h1 obj;
        '(h2, _) ← slot_Release v' h1 obj;
        (* return hr; *)
        Some (h2, hr, ppv')
    end.

End Allocator.

(** HRESULT Factory_LockServer(void* this, BOOL fLock) { return S_OK; } *)
Definition Factory_LockServer (h : Heap) (this : ptr) (fLock : bool)
  : option (Heap * HRESULT) :=
  Some (h, S_OK).

(** *** 3. DLL exports *)

(** HRESULT DllGetClassObject(REFCLSID rclsid, REFIID riid, LPVOID* ppv) *)
Definition DllGetClassObject (h : Heap) (rclsid riid : GUID) (ppv : ptr)
  : option (Heap * HRESULT * ptr) :=
  if IsEqualGUID rclsid CLSID_SimpleCalculator then
    slot_QueryInterface (factory_lpVtbl SimpleClassFactory)
      h addr_SimpleClassFactory riid ppv
  else Some (h, CLASS_E_CLASSNOTAVAILABLE, ppv).

(** HRESULT DllCanUnloadNow() { return S_FALSE; } *)
Definition DllCanUnloadNow (h : Heap) : option (Heap * HRESULT) :=
  Some (h, S_FALSE).

(** BOOL DllMain(...) { return TRUE; } *)
Definition DllMain (h : Heap) : option (Heap * Z) := Some (h, TRUE).

(** *** Calls that report a status *)

(** Every function of the module that returns an [HRESULT], with its
    arguments.  The others return no status: [AddRef], [Release],
    [Factory_AddRef] and [Factory_Release] return a count, [Add] a sum,
    [DllMain] a flag, and [GetInfo] (not embedded: it only asks the platform
    for a copy of a constant string) a string. *)
Inductive call : Type :=
| Call_QueryInterface (this : ptr) (riid : GUID)
| Call_Factory_QueryInterface (this : ptr) (riid : GUID)
| Call_Factory_CreateInstance (this pUnkOuter : ptr) (riid : GUID)
| Call_Factory_LockServer (this : ptr) (fLock : bool)
| Call_DllGetClassObject (rclsid riid : GUID)
| Call_DllCanUnloadNow.

Definition run (malloc : Heap → option positive)
    (h : Heap) (c : call) (ppv : ptr) : option (Heap * HRESULT * ptr) :=
  match c with
  | Call_QueryInterface this riid => QueryInterface h this riid ppv
  | Call_Factory_QueryInterface this riid => Factory_QueryInterface h this riid ppv
  | Call_Factory_CreateInstance this pUnkOuter riid =>
      Factory_CreateInstance malloc h this pUnkOuter riid ppv
  | Call_Factory_LockServer this fLock =>
      '(h', hr) ← Factory_LockServer h this fLock; Some (h', hr, ppv)
  | Call_DllGetClassObject rclsid riid => DllGetClassObject h rclsid riid ppv
  | Call_DllCanUnloadNow =>
      '(h', hr) ← DllCanUnloadNow h; Some (h', hr, ppv)
  end.

(** *** A client of the factory's reference counting *)

(** One retain or one release of the factory, made the way a client makes
    it: through the dispatch table of [SimpleClassFactory]. *)
Inductive ref_op : Type :=
| DoAddRef
| DoRelease.

Definition factory_ref_op (op : ref_op) (h : Heap) : option (Heap * Z) :=
  let v := factory_lpVtbl SimpleClassFactory in
  match op with
  | DoAddRef => slot_AddRef v h addr_SimpleClassFactory
  | DoRelease => slot_Release v h addr_SimpleClassFactory
  end.

(** A sequence of them, with the counts they report. *)
Fixpoint factory_ref_ops (ops : list ref_op) (h : Heap) : option (Heap * list Z) :=
  match ops with
  | [] => Some (h, [])
  | op :: ops' =>
      '(h1, n) ← factory_ref_op op h;
      '(h2, ns) ← factory_ref_ops ops' h1;
      Some (h2, n :: ns)
  end.

(** *** Vocabulary of the specification *)

(** The capability identifiers each object answers to. *)
Definition calculator_supports (riid : GUID) : Prop :=
  riid = IID_IUnknown ∨ riid = IID_ICalculator.

Definition factory_supports (riid : GUID) : Prop :=
  riid = IID_IUnknown ∨ riid = IID_IClassFactory.

(** A live Calculator instance with reference count [c] at block [l]. *)
Definition calculator_at (h : Heap) (l : positive) (c : Z) : Prop :=
  h !! l = Some (mkSimpleCalculator CalculatorVtbl c).

#[global] Instance calculator_supports_dec (riid : GUID) :
  Decision (calculator_supports riid).
Proof. unfold calculator_supports. apply _. Defined.

#[global] Instance factory_supports_dec (riid : GUID) :
  Decision (factory_supports riid).
Proof. unfold factory_supports. apply _. Defined.

(** What decides the status of each call: the branch of the function that
    was taken, named by the condition that selects it. *)
Definition status_explained (malloc : Heap → option positive)
    (h : Heap) (c : call) (hr : HRESULT) : Prop :=
  match c with
  | Call_QueryInterface _ riid =>
      (calculator_supports riid ∧ hr = S_OK) ∨
      (¬ calculator_supports riid ∧ hr = E_NOINTERFACE)
  | Call_Factory_QueryInterface _ riid =>
      (factory_supports riid ∧ hr = S_OK) ∨
      (¬ factory_supports riid ∧ hr = E_NOINTERFACE)
  | Call_Factory_CreateInstance _ pUnkOuter riid =>
      (pUnkOuter ≠ NULL ∧ hr = CLASS_E_NOAGGREGATION) ∨
      (pUnkOuter = NULL ∧ malloc h = None ∧ hr = E_OUTOFMEMORY) ∨
      (pUnkOuter = NULL ∧ is_Some (malloc h) ∧ calculator_supports riid ∧ hr = S_OK) ∨
      (pUnkOuter = NULL ∧ is_Some (malloc h) ∧ ¬ calculator_supports riid ∧
         hr = E_NOINTERFACE)
  | Call_Factory_LockServer _ _ => hr = S_OK
  | Call_DllGetClassObject rclsid riid =>
      (rclsid ≠ CLSID_SimpleCalculator ∧ hr = CLASS_E_CLASSNOTAVAILABLE) ∨
      (rclsid = CLSID_SimpleCalculator ∧ factory_supports riid ∧ hr = S_OK) ∨
      (rclsid = CLSID_SimpleCalculator ∧ ¬ factory_supports riid ∧ hr = E_NOINTERFACE)
  | Call_DllCanUnloadNow => hr = S_FALSE
  end.

(** The failure codes the module can return. *)
Definition failure_codes : list HRESULT :=
  [E_NOINTERFACE; CLASS_E_NOAGGREGATION; E_OUTOFMEMORY; CLASS_E_CLASSNOTAVAILABLE].

(** A test-double allocator: hands out block 1 while it is free and fails
    otherwise. *)
Definition one_block_malloc (h : Heap) : option positive :=
  match h !! 1%positive with
  | None => Some 1%positive
  | Some _ => None
  end.

(** An allocator that always fails. *)
Definition failing_malloc (h : Heap) : option positive := None.

(** *** Clients that hold several references *)

(** [n] successive calls of a reference-counting function on one pointer,
    each on the heap the previous one left. *)
Fixpoint repeat_call (n : nat) (f : Heap → ptr → option (Heap * Z))
    (h : Heap) (this : ptr) : option Heap :=
  match n with
  | O => Some h
  | S n' => '(h1, _) ← f h this; repeat_call n' f h1 this
  end.

(** Every live block is a Calculator whose count is positive and fits a
    [long]. *)
Definition heap_ok (h : Heap) : Prop :=
  map_Forall (λ _ o, lpVtbl o = CalculatorVtbl ∧ 1 ≤ count o ≤ LONG_MAX) h.

(** No live count is at the top of its range. *)
Definition counts_below_max (h : Heap) : Prop :=
  map_Forall (λ _ o, count o < LONG_MAX) h.

(** A test-double allocator with two blocks: hands out block 1 while it is
    free, else block 2 while it is free, else fails. *)
Definition two_block_malloc (h : Heap) : option positive :=
  match h !! 1%positive with
  | None => Some 1%positive
  | Some _ =>
      match h !! 2%positive with
      | None => Some 2%positive
      | Some _ => None
      end
  end.

End SimpleCom.


(** ** Properties *)

Import Win32 SimpleCom.

(** *** 32-bit arithmetic *)

Lemma to_LONG_id (x : Z) : is_LONG x → to_LONG x = x.
Proof.
  unfold is_LONG, LONG_MIN, LONG_MAX, to_LONG. intros Hx.
  rewrite Z.mod_small; lia.
Qed.

Lemma to_LONG_range (x : Z) : is_LONG (to_LONG x).
Proof.
  unfold is_LONG, LONG_MIN, LONG_MAX, to_LONG.
  pose proof (Z.mod_pos_bound (x + 2 ^ 31) (2 ^ 32)). lia.
Qed.

Lemma InterlockedIncrement_below_max (c : Z) :
  is_LONG c → c < LONG_MAX → InterlockedIncrement c = c + 1.
Proof.
  unfold InterlockedIncrement. intros Hc Hlt. apply to_LONG_id.
  unfold is_LONG, LONG_MIN, LONG_MAX in *. lia.
Qed.

Lemma InterlockedIncrement_at_max : InterlockedIncrement LONG_MAX = LONG_MIN.
Proof. reflexivity. Qed.

Lemma InterlockedDecrement_above_min (c : Z) :
  is_LONG c → LONG_MIN < c → InterlockedDecrement c = c - 1.
Proof.
  unfold InterlockedDecrement. intros Hc Hlt. apply to_LONG_id.
  unfold is_LONG, LONG_MIN, LONG_MAX in *. lia.
Qed.

(** *** Identifier comparison *)

Lemma IsEqualGUID_true (a b : GUID) : IsEqualGUID a b = true ↔ a = b.
Proof. unfold IsEqualGUID. apply bool_decide_eq_true. Qed.

Lemma IsEqualGUID_false (a b : GUID) : IsEqualGUID a b = false ↔ a ≠ b.
Proof. unfold IsEqualGUID. apply bool_decide_eq_false. Qed.

Lemma calculator_supports_test (riid : GUID) :
  calculator_supports riid →
  IsEqualGUID riid IID_IUnknown || IsEqualGUID riid IID_ICalculator = true.
Proof.
  intros [-> | ->]; apply orb_true_iff; [left | right];
    by apply IsEqualGUID_true.
Qed.

Lemma calculator_rejects_test (riid : GUID) :
  ¬ calculator_supports riid →
  IsEqualGUID riid IID_IUnknown || IsEqualGUID riid IID_ICalculator = false.
Proof.
  intros Hno. apply orb_false_iff.
  split; apply IsEqualGUID_false; intros ->; apply Hno; [by left | by right].
Qed.

Lemma factory_supports_test (riid : GUID) :
  factory_supports riid →
  IsEqualGUID riid IID_IUnknown || IsEqualGUID riid IID_IClassFactory = true.
Proof.
  intros [-> | ->]; apply orb_true_iff; [left | right];
    by apply IsEqualGUID_true.
Qed.

Lemma factory_rejects_test (riid : GUID) :
  ¬ factory_supports riid →
  IsEqualGUID riid IID_IUnknown || IsEqualGUID riid IID_IClassFactory = false.
Proof.
  intros Hno. apply orb_false_iff.
  split; apply IsEqualGUID_false; intros ->; apply Hno; [by left | by right].
Qed.

(** *** Reference counting on a live Calculator *)

Lemma AddRef_live (h : Heap) (l : positive) (c : Z) :
  calculator_at h l c →
  AddRef h (HeapPtr l) =
    Some (<[l := mkSimpleCalculator CalculatorVtbl (InterlockedIncrement c)]> h,
          to_ULONG (InterlockedIncrement c)).
Proof. unfold calculator_at, AddRef. intros ->. reflexivity. Qed.

Lemma Release_live (h : Heap) (l : positive) (c : Z) :
  calculator_at h l c →
  Release h (HeapPtr l) =
    Some (if to_ULONG (InterlockedDecrement c) =? 0
          then delete l h
          else <[l := mkSimpleCalculator CalculatorVtbl (InterlockedDecrement c)]> h,
          to_ULONG (InterlockedDecrement c)).
Proof.
  unfold calculator_at, Release. intros ->. simpl.
  destruct (to_ULONG (InterlockedDecrement c) =? 0); [|reflexivity].
  by rewrite delete_insert_eq.
Qed.

Lemma QueryInterface_live (h : Heap) (l : positive) (c : Z) (riid : GUID) (ppv : ptr) :
  calculator_at h l c → calculator_supports riid →
  QueryInterface h (HeapPtr l) riid ppv =
    Some (<[l := mkSimpleCalculator CalculatorVtbl (InterlockedIncrement c)]> h,
          S_OK, HeapPtr l).
Proof.
  intros Hl Hs. unfold QueryInterface.
  rewrite (calculator_supports_test _ Hs).
  cbn [load_lpVtbl]. rewrite Hl. cbn [fmap option_fmap option_map mbind option_bind lpVtbl slot_AddRef].
  rewrite (AddRef_live _ _ _ Hl). reflexivity.
Qed.

Lemma QueryInterface_unsupported (h : Heap) (this : ptr) (riid : GUID) (ppv : ptr) :
  ¬ calculator_supports riid →
  QueryInterface h this riid ppv = Some (h, E_NOINTERFACE, NULL).
Proof.
  intros Hno. unfold QueryInterface.
  by rewrite (calculator_rejects_test _ Hno).
Qed.

(** *** Capability query on the Calculator *)

(** C2 (as amended).  For a supported identifier (the base unknown identifier
    or the calculator identifier), querying a live Calculator instance
    succeeds with [S_OK] and returns through [ppv] the non-null pointer to the
    very same instance.  The count is raised by exactly 1 as long as it is
    below [LONG_MAX]; at [LONG_MAX] the 32-bit count wraps to [LONG_MIN]. *)
Theorem QueryInterface_supported_increments
    (h : Heap) (l : positive) (c : Z) (riid : GUID) (ppv : ptr) :
  calculator_at h l c → is_LONG c → calculator_supports riid →
  HeapPtr l ≠ NULL ∧
  (c < LONG_MAX →
     QueryInterface h (HeapPtr l) riid ppv =
       Some (<[l := mkSimpleCalculator CalculatorVtbl (c + 1)]> h, S_OK, HeapPtr l)) ∧
  (c = LONG_MAX →
     QueryInterface h (HeapPtr l) riid ppv =
       Some (<[l := mkSimpleCalculator CalculatorVtbl LONG_MIN]> h, S_OK, HeapPtr l)).
Proof.
  intros Hl Hc Hs. split; [discriminate|].
  rewrite (QueryInterface_live _ _ _ _ ppv Hl Hs). split.
  - intros Hlt. by rewrite InterlockedIncrement_below_max.
  - intros ->. by rewrite InterlockedIncrement_at_max.
Qed.

Lemma QueryInterface_supported_increments_witness :
  let h : Heap := {[ 1%positive := mkSimpleCalculator CalculatorVtbl 1 ]} in
  calculator_at h 1 1 ∧ is_LONG 1 ∧ calculator_supports IID_ICalculator ∧
  1 < LONG_MAX ∧
  QueryInterface h (HeapPtr 1) IID_ICalculator NULL =
    Some (<[1%positive := mkSimpleCalculator CalculatorVtbl (1 + 1)]> h, S_OK, HeapPtr 1).
Proof.
  intros h.
  assert (Hl : calculator_at h 1 1) by reflexivity.
  assert (Hc : is_LONG 1) by (unfold is_LONG, LONG_MIN, LONG_MAX; lia).
  assert (Hs : calculator_supports IID_ICalculator) by (right; reflexivity).
  assert (Hlt : 1 < LONG_MAX) by (unfold LONG_MAX; lia).
  split; [exact Hl|]. split; [exact Hc|]. split; [exact Hs|]. split; [exact Hlt|].
  exact (proj1 (proj2 (QueryInterface_supported_increments
                         h 1 1 IID_ICalculator NULL Hl Hc Hs)) Hlt).
Defined.

(** C2 as worded fails on an instance whose count is [LONG_MAX]: the query
    succeeds, but the count it leaves is [LONG_MIN], not [LONG_MAX + 1]. *)
Lemma QueryInterface_wraps_at_LONG_MAX :
  (let h : Heap := {[ 1%positive := mkSimpleCalculator CalculatorVtbl LONG_MAX ]} in
   QueryInterface h (HeapPtr 1) IID_ICalculator NULL =
     Some ({[ 1%positive := mkSimpleCalculator CalculatorVtbl LONG_MIN ]}, S_OK, HeapPtr 1)) ∧
  ¬ (∀ (h : Heap) (l : positive) (c : Z) (riid : GUID) (ppv : ptr),
       calculator_at h l c → is_LONG c → calculator_supports riid →
       ∃ h' : Heap,
         QueryInterface h (HeapPtr l) riid ppv = Some (h', S_OK, HeapPtr l) ∧
         calculator_at h' l (c + 1)).
Proof.
  split; [reflexivity|].
  intros Hclaim.
  destruct (Hclaim {[ 1%positive := mkSimpleCalculator CalculatorVtbl LONG_MAX ]}
              1%positive LONG_MAX IID_ICalculator NULL)
    as (h' & Hq & Hat).
  - reflexivity.
  - unfold is_LONG, LONG_MIN, LONG_MAX; lia.
  - by right.
  - vm_compute in Hq. injection Hq as <-. vm_compute in Hat. discriminate.
Qed.

(** C5.  For an identifier the Calculator does not support, the query writes
    a null pointer to [ppv], returns [E_NOINTERFACE] and changes nothing: the
    heap after the call is the heap before it, so every instance keeps its
    count. *)
Theorem QueryInterface_unsupported_no_capability
    (h : Heap) (this : ptr) (riid : GUID) (ppv : ptr) :
  ¬ calculator_supports riid →
  QueryInterface h this riid ppv = Some (h, E_NOINTERFACE, NULL) ∧
  ∀ (h' : Heap) (hr : HRESULT) (out : ptr),
    QueryInterface h this riid ppv = Some (h', hr, out) →
    hr = E_NOINTERFACE ∧ out = NULL ∧
    ∀ (l : positive) (c : Z), calculator_at h l c → calculator_at h' l c.
Proof.
  intros Hno. rewrite (QueryInterface_unsupported _ _ _ _ Hno).
  split; [reflexivity|].
  intros h' hr out [= <- <- <-]. auto.
Qed.

Lemma QueryInterface_unsupported_no_capability_witness :
  let h : Heap := {[ 1%positive := mkSimpleCalculator CalculatorVtbl 1 ]} in
  ¬ calculator_supports IID_IClassFactory ∧
  QueryInterface h (HeapPtr 1) IID_IClassFactory (HeapPtr 1) =
    Some (h, E_NOINTERFACE, NULL).
Proof.
  intros h.
  assert (Hno : ¬ calculator_supports IID_IClassFactory)
    by (intros [H | H]; discriminate H).
  split; [exact Hno|].
  exact (proj1 (QueryInterface_unsupported_no_capability
                  h (HeapPtr 1) IID_IClassFactory (HeapPtr 1) Hno)).
Defined.

(** *** The Calculator's method *)

(** C8.  [Add] returns the sum of its arguments and nothing else happens: the
    heap is returned as it was, whatever [this] is.  Nothing checks for
    overflow: the call never fails, and the result is the 32-bit sum, which
    is [a + b] itself whenever that fits an [int].  In particular
    Add(2,3) = 5, Add(-1,1) = 0 and Add(0,0) = 0. *)
Theorem Add_returns_sum (h : Heap) (this : ptr) (a b : Z) :
  Add h this a b = Some (h, to_int (a + b)) ∧
  is_LONG (to_int (a + b)) ∧
  to_int (a + b) mod 2 ^ 32 = (a + b) mod 2 ^ 32 ∧
  (is_LONG (a + b) → Add h this a b = Some (h, a + b)) ∧
  Add h this 2 3 = Some (h, 5) ∧
  Add h this (-1) 1 = Some (h, 0) ∧
  Add h this 0 0 = Some (h, 0).
Proof.
  split; [reflexivity|]. split; [apply to_LONG_range|]. split.
  { unfold to_int, to_LONG.
    rewrite Zminus_mod, Zmod_mod, <- Zminus_mod.
    replace (a + b + 2 ^ 31 - 2 ^ 31) with (a + b) by lia. reflexivity. }
  split.
  { intros Hfit. unfold Add, to_int. by rewrite to_LONG_id. }
  repeat split.
Qed.

Lemma Add_returns_sum_witness :
  is_LONG (2147483000 + 647) ∧
  Add ∅ NULL 2147483000 647 = Some (∅, 2147483000 + 647).
Proof.
  assert (Hfit : is_LONG (2147483000 + 647))
    by (unfold is_LONG, LONG_MIN, LONG_MAX; lia).
  split; [exact Hfit|].
  exact (proj1 (proj2 (proj2 (proj2
           (Add_returns_sum ∅ NULL 2147483000 647)))) Hfit).
Defined.

(** *** The class factory *)

Lemma Factory_QueryInterface_supported (h : Heap) (this : ptr) (riid : GUID) (ppv : ptr) :
  factory_supports riid →
  Factory_QueryInterface h this riid ppv = Some (h, S_OK, this).
Proof.
  intros Hs. unfold Factory_QueryInterface.
  by rewrite (factory_supports_test _ Hs).
Qed.

Lemma Factory_QueryInterface_unsupported (h : Heap) (this : ptr) (riid : GUID) (ppv : ptr) :
  ¬ factory_supports riid →
  Factory_QueryInterface h this riid ppv = Some (h, E_NOINTERFACE, NULL).
Proof.
  intros Hno. unfold Factory_QueryInterface.
  by rewrite (factory_rejects_test _ Hno).
Qed.

(** C3 (as amended).  For a supported identifier of the factory (the base
    unknown identifier or the creation identifier), the factory's capability
    query succeeds and returns the non-null pointer to the factory itself,
    and it changes no state: the factory carries no reference count, so the
    heap is returned as it was and a release asked for afterwards reports
    what it reported before. *)
Theorem Factory_QueryInterface_supported_no_count
    (h : Heap) (riid : GUID) (ppv : ptr) :
  factory_supports riid →
  Factory_QueryInterface h addr_SimpleClassFactory riid ppv =
    Some (h, S_OK, addr_SimpleClassFactory) ∧
  addr_SimpleClassFactory ≠ NULL ∧
  ∀ (h' : Heap) (hr : HRESULT) (out : ptr),
    Factory_QueryInterface h addr_SimpleClassFactory riid ppv = Some (h', hr, out) →
    h' = h ∧
    Factory_AddRef h' out = Factory_AddRef h addr_SimpleClassFactory ∧
    Factory_Release h' out = Factory_Release h addr_SimpleClassFactory.
Proof.
  intros Hs. rewrite (Factory_QueryInterface_supported _ _ _ _ Hs).
  split; [reflexivity|]. split; [discriminate|].
  by intros h' hr out [= <- <- <-].
Qed.

Lemma Factory_QueryInterface_supported_no_count_witness :
  factory_supports IID_IClassFactory ∧
  Factory_QueryInterface ∅ addr_SimpleClassFactory IID_IClassFactory NULL =
    Some (∅, S_OK, addr_SimpleClassFactory).
Proof.
  assert (Hs : factory_supports IID_IClassFactory) by (right; reflexivity).
  split; [exact Hs|].
  exact (proj1 (Factory_QueryInterface_supported_no_count
                  ∅ IID_IClassFactory NULL Hs)).
Defined.

(** C3 as worded fails: the query leaves the whole state as it found it, so
    no quantity read off the state goes up by one across it.  On the empty
    heap and the base identifier the call returns the heap it was given. *)
Lemma Factory_QueryInterface_increments_nothing :
  Factory_QueryInterface ∅ addr_SimpleClassFactory IID_IUnknown NULL =
    Some (∅, S_OK, addr_SimpleClassFactory) ∧
  ¬ (∃ refcount : Heap → Z,
       ∀ (h : Heap) (riid : GUID) (ppv : ptr),
         factory_supports riid →
         ∃ (h' : Heap) (out : ptr),
           Factory_QueryInterface h addr_SimpleClassFactory riid ppv =
             Some (h', S_OK, out) ∧
           out ≠ NULL ∧
           refcount h' = refcount h + 1).
Proof.
  split; [reflexivity|].
  intros (refcount & Hclaim).
  destruct (Hclaim ∅ IID_IUnknown NULL) as (h' & out & Hq & _ & Hinc).
  - by left.
  - injection Hq as <- _. lia.
Qed.

Lemma factory_ref_op_noop (op : ref_op) (h : Heap) :
  ∃ n : Z, factory_ref_op op h = Some (h, n) ∧ n ≠ 0.
Proof. destruct op; [exists 2 | exists 1]; split; done. Qed.

Lemma factory_ref_ops_noop (ops : list ref_op) (h : Heap) :
  ∃ counts : list Z,
    factory_ref_ops ops h = Some (h, counts) ∧
    length counts = length ops ∧
    Forall (λ n, n ≠ 0) counts.
Proof.
  induction ops as [|op ops IH].
  - exists []. repeat split. constructor.
  - destruct (factory_ref_op_noop op h) as (n & Hop & Hn).
    destruct IH as (counts & Hops & Hlen & Hall).
    exists (n :: counts). split; [|split].
    + cbn [factory_ref_ops]. rewrite Hop. cbn [mbind option_bind].
      rewrite Hops. reflexivity.
    + cbn [length]. by rewrite Hlen.
    + by constructor.
Qed.

Lemma one_block_malloc_fresh (h : Heap) (l : positive) :
  one_block_malloc h = Some l → h !! l = None.
Proof.
  unfold one_block_malloc.
  destruct (h !! 1%positive) eqn:Hfree; [discriminate|].
  by intros [= <-].
Qed.

Lemma failing_malloc_fresh (h : Heap) (l : positive) :
  failing_malloc h = Some l → h !! l = None.
Proof. discriminate. Qed.

(** The steps of a creation, one at a time. *)

Lemma QueryInterface_new (h : Heap) (l : positive) (riid : GUID) (ppv : ptr) :
  calculator_supports riid →
  QueryInterface (<[l := new_SimpleCalculator]> h) (HeapPtr l) riid ppv =
    Some (<[l := mkSimpleCalculator CalculatorVtbl 2]> h, S_OK, HeapPtr l).
Proof.
  intros Hs.
  rewrite (QueryInterface_live _ l 1 riid ppv); [|apply lookup_insert_eq|done].
  by rewrite insert_insert_eq.
Qed.

Lemma Release_second_reference (h : Heap) (l : positive) :
  Release (<[l := mkSimpleCalculator CalculatorVtbl 2]> h) (HeapPtr l) =
    Some (<[l := new_SimpleCalculator]> h, 1).
Proof.
  rewrite (Release_live _ l 2); [|apply lookup_insert_eq].
  change (InterlockedDecrement 2) with 1. change (to_ULONG 1) with 1.
  cbn [Z.eqb Pos.eqb]. by rewrite insert_insert_eq.
Qed.

Lemma Release_last_reference (h : Heap) (l : positive) :
  Release (<[l := new_SimpleCalculator]> h) (HeapPtr l) = Some (delete l h, 0).
Proof.
  rewrite (Release_live _ l 1); [|apply lookup_insert_eq].
  change (InterlockedDecrement 1) with 0. change (to_ULONG 0) with 0.
  cbn [Z.eqb]. by rewrite delete_insert_eq.
Qed.

Section CreateInstance.

Variable malloc : Heap → option positive.

Lemma Factory_CreateInstance_aggregation
    (h : Heap) (this pUnkOuter : ptr) (riid : GUID) (ppv : ptr) :
  pUnkOuter ≠ NULL →
  Factory_CreateInstance malloc h this pUnkOuter riid ppv =
    Some (h, CLASS_E_NOAGGREGATION, ppv).
Proof.
  intros Hout. unfold Factory_CreateInstance.
  by rewrite bool_decide_eq_true_2.
Qed.

Lemma Factory_CreateInstance_no_memory
    (h : Heap) (this : ptr) (riid : GUID) (ppv : ptr) :
  malloc h = None →
  Factory_CreateInstance malloc h this NULL riid ppv = Some (h, E_OUTOFMEMORY, ppv).
Proof.
  intros Hm. unfold Factory_CreateInstance.
  rewrite bool_decide_eq_false_2 by (intros Hne; by apply Hne).
  by rewrite Hm.
Qed.

Lemma Factory_CreateInstance_allocated
    (h : Heap) (this : ptr) (riid : GUID) (ppv : ptr) (l : positive) :
  malloc h = Some l →
  Factory_CreateInstance malloc h this NULL riid ppv =
    '(h1, hr, ppv') ← QueryInterface (<[l := new_SimpleCalculator]> h) (HeapPtr l) riid ppv;
    v' ← load_lpVtbl h1 (HeapPtr l);
    '(h2, _) ← slot_Release v' h1 (HeapPtr l);
    Some (h2, hr, ppv').
Proof.
  intros Hm. unfold Factory_CreateInstance.
  rewrite bool_decide_eq_false_2 by (intros Hne; by apply Hne).
  rewrite Hm. cbn [load_lpVtbl]. rewrite lookup_insert_eq. reflexivity.
Qed.

Lemma Factory_CreateInstance_supported
    (h : Heap) (this : ptr) (riid : GUID) (ppv : ptr) (l : positive) :
  malloc h = Some l → calculator_supports riid →
  Factory_CreateInstance malloc h this NULL riid ppv =
    Some (<[l := new_SimpleCalculator]> h, S_OK, HeapPtr l).
Proof.
  intros Hm Hs. rewrite (Factory_CreateInstance_allocated _ _ _ _ _ Hm).
  rewrite (QueryInterface_new _ _ _ _ Hs).
  cbn [mbind option_bind load_lpVtbl]. rewrite lookup_insert_eq.
  cbn [fmap option_fmap option_map lpVtbl slot_Release mbind option_bind].
  rewrite Release_second_reference. reflexivity.
Qed.

Lemma Factory_CreateInstance_unsupported
    (h : Heap) (this : ptr) (riid : GUID) (ppv : ptr) (l : positive) :
  malloc h = Some l → ¬ calculator_supports riid →
  Factory_CreateInstance malloc h this NULL riid ppv =
    Some (delete l h, E_NOINTERFACE, NULL).
Proof.
  intros Hm Hno. rewrite (Factory_CreateInstance_allocated _ _ _ _ _ Hm).
  rewrite (QueryInterface_unsupported _ _ _ _ Hno).
  cbn [mbind option_bind load_lpVtbl]. rewrite lookup_insert_eq.
  cbn [fmap option_fmap option_map lpVtbl slot_Release mbind option_bind].
  rewrite Release_last_reference. reflexivity.
Qed.

End CreateInstance.

(** C9.  The class factory is one object in static storage: its address is
    no heap block, and in every heap it is there with its dispatch table, so
    nothing the module does creates or destroys it.  Reference counting on
    it does nothing: a retain reports 2 and a release reports 1, whatever
    came before, and any sequence of retains and releases made through the
    factory's dispatch table reports only nonzero counts and returns the
    heap as it was, so the factory is never reclaimed. *)
Theorem factory_refcount_is_noop (h : Heap) (this : ptr) (ops : list ref_op) :
  Factory_AddRef h this = Some (h, 2) ∧
  Factory_Release h this = Some (h, 1) ∧
  slot_AddRef (factory_lpVtbl SimpleClassFactory) = Factory_AddRef ∧
  slot_Release (factory_lpVtbl SimpleClassFactory) = Factory_Release ∧
  (∃ counts : list Z,
     factory_ref_ops ops h = Some (h, counts) ∧
     length counts = length ops ∧
     Forall (λ n, n ≠ 0) counts) ∧
  load_lpVtbl h addr_SimpleClassFactory = Some ClassFactoryVtbl ∧
  (∀ l : positive, addr_SimpleClassFactory ≠ HeapPtr l).
Proof.
  repeat (split; [reflexivity|]).
  split; [apply factory_ref_ops_noop|].
  split; [reflexivity|]. discriminate.
Qed.

(** C6.  With a non-null outer object [Factory_CreateInstance] fails with
    [CLASS_E_NOAGGREGATION] for every requested identifier.  It allocates
    nothing and changes nothing: the heap and the content of [ppv] come back
    as they were, and the allocator plays no part in the result. *)
Theorem Factory_CreateInstance_rejects_aggregation
    (malloc : Heap → option positive)
    (h : Heap) (this pUnkOuter : ptr) (riid : GUID) (ppv : ptr) :
  pUnkOuter ≠ NULL →
  Factory_CreateInstance malloc h this pUnkOuter riid ppv =
    Some (h, CLASS_E_NOAGGREGATION, ppv) ∧
  FAILED CLASS_E_NOAGGREGATION = true ∧
  ∀ malloc' : Heap → option positive,
    Factory_CreateInstance malloc' h this pUnkOuter riid ppv =
    Factory_CreateInstance malloc h this pUnkOuter riid ppv.
Proof.
  intros Hout. split; [by apply Factory_CreateInstance_aggregation|].
  split; [reflexivity|]. intros malloc'.
  by rewrite !Factory_CreateInstance_aggregation.
Qed.

Lemma Factory_CreateInstance_rejects_aggregation_witness :
  HostPtr 7 ≠ NULL ∧
  Factory_CreateInstance one_block_malloc ∅ addr_SimpleClassFactory (HostPtr 7)
    IID_ICalculator NULL = Some (∅, CLASS_E_NOAGGREGATION, NULL).
Proof.
  assert (Hout : HostPtr 7 ≠ NULL) by discriminate.
  split; [exact Hout|].
  exact (proj1 (Factory_CreateInstance_rejects_aggregation one_block_malloc
                  ∅ addr_SimpleClassFactory (HostPtr 7) IID_ICalculator NULL Hout)).
Defined.

(** *** The module entry point *)

Lemma DllGetClassObject_unknown_class (h : Heap) (rclsid riid : GUID) (ppv : ptr) :
  rclsid ≠ CLSID_SimpleCalculator →
  DllGetClassObject h rclsid riid ppv = Some (h, CLASS_E_CLASSNOTAVAILABLE, ppv).
Proof.
  intros Hne. unfold DllGetClassObject.
  by rewrite (proj2 (IsEqualGUID_false _ _) Hne).
Qed.

Lemma DllGetClassObject_known_class (h : Heap) (riid : GUID) (ppv : ptr) :
  DllGetClassObject h CLSID_SimpleCalculator riid ppv =
    Factory_QueryInterface h addr_SimpleClassFactory riid ppv.
Proof.
  unfold DllGetClassObject.
  by rewrite (proj2 (IsEqualGUID_true _ _) eq_refl).
Qed.

(** C7.  For a class identifier other than [CLSID_SimpleCalculator],
    [DllGetClassObject] fails with [CLASS_E_CLASSNOTAVAILABLE] and leaves the
    heap (and [ppv]) as they were, so nothing is allocated; for
    [CLSID_SimpleCalculator] it returns exactly what the factory's
    capability query returns for the requested identifier. *)
Theorem DllGetClassObject_by_class (h : Heap) (rclsid riid : GUID) (ppv : ptr) :
  (rclsid ≠ CLSID_SimpleCalculator →
     DllGetClassObject h rclsid riid ppv = Some (h, CLASS_E_CLASSNOTAVAILABLE, ppv)) ∧
  (rclsid = CLSID_SimpleCalculator →
     DllGetClassObject h rclsid riid ppv =
       Factory_QueryInterface h addr_SimpleClassFactory riid ppv).
Proof.
  split.
  - apply DllGetClassObject_unknown_class.
  - intros ->. apply DllGetClassObject_known_class.
Qed.

Lemma DllGetClassObject_by_class_witness :
  (IID_ICalculator ≠ CLSID_SimpleCalculator ∧
   DllGetClassObject ∅ IID_ICalculator IID_IClassFactory NULL =
     Some (∅, CLASS_E_CLASSNOTAVAILABLE, NULL)) ∧
  (CLSID_SimpleCalculator = CLSID_SimpleCalculator ∧
   DllGetClassObject ∅ CLSID_SimpleCalculator IID_IClassFactory NULL =
     Factory_QueryInterface ∅ addr_SimpleClassFactory IID_IClassFactory NULL).
Proof.
  assert (Hne : IID_ICalculator ≠ CLSID_SimpleCalculator) by discriminate.
  split; (split; [done|]).
  - exact (proj1 (DllGetClassObject_by_class ∅ IID_ICalculator IID_IClassFactory NULL) Hne).
  - exact (proj2 (DllGetClassObject_by_class ∅ CLSID_SimpleCalculator IID_IClassFactory NULL)
             eq_refl).
Defined.

(** *** Creation of Calculator instances *)

Section FreshAllocator.

Variable malloc : Heap → option positive.

(** A block handed out by [malloc] is not one that is already in use. *)
Hypothesis malloc_fresh : ∀ (h : Heap) (l : positive), malloc h = Some l → h !! l = None.

(** C1.  With a null outer object and a supported identifier,
    [Factory_CreateInstance] allocates a new block and makes it a Calculator
    with count 1, queries it for the requested identifier (count 2), and
    releases its own reference (count 1).  It returns [S_OK] and, through
    [ppv], the pointer to the new instance, whose count is 1; releasing that
    pointer once brings the count to 0 and frees the block, which gives back
    the heap as it was before the creation.  When [malloc] fails the call
    fails with [E_OUTOFMEMORY]. *)
Theorem Factory_CreateInstance_hands_over_sole_reference
    (h : Heap) (this : ptr) (riid : GUID) (ppv : ptr) :
  (∀ l : positive, malloc h = Some l → calculator_supports riid →
     let h0 := <[l := new_SimpleCalculator]> h in
     let h1 := <[l := mkSimpleCalculator CalculatorVtbl 2]> h in
     h !! l = None ∧
     calculator_at h0 l 1 ∧
     QueryInterface h0 (HeapPtr l) riid ppv = Some (h1, S_OK, HeapPtr l) ∧
     Release h1 (HeapPtr l) = Some (h0, 1) ∧
     Factory_CreateInstance malloc h this NULL riid ppv = Some (h0, S_OK, HeapPtr l) ∧
     Release h0 (HeapPtr l) = Some (h, 0)) ∧
  (malloc h = None →
     Factory_CreateInstance malloc h this NULL riid ppv = Some (h, E_OUTOFMEMORY, ppv) ∧
     FAILED E_OUTOFMEMORY = true).
Proof.
  split.
  - intros l Hm Hs h0 h1. pose proof (malloc_fresh _ _ Hm) as Hnew.
    split; [exact Hnew|].
    split; [apply lookup_insert_eq|].
    split; [by apply QueryInterface_new|].
    split; [apply Release_second_reference|].
    split; [by apply Factory_CreateInstance_supported|].
    unfold h0. rewrite Release_last_reference. by rewrite delete_id.
  - intros Hm. split; [by apply Factory_CreateInstance_no_memory|reflexivity].
Qed.

(** C10.  With a null outer object, a successful allocation and an
    identifier the Calculator does not support, [Factory_CreateInstance]
    returns [E_NOINTERFACE] with a null pointer in [ppv]; the release of its
    own reference brings the count of the new instance to 0 and frees it
    before the return, so the heap after the call is the heap before it: no
    block is leaked and no instance is left alive. *)
Theorem Factory_CreateInstance_unsupported_frees
    (h : Heap) (this : ptr) (riid : GUID) (ppv : ptr) (l : positive) :
  malloc h = Some l → ¬ calculator_supports riid →
  let h0 := <[l := new_SimpleCalculator]> h in
  QueryInterface h0 (HeapPtr l) riid ppv = Some (h0, E_NOINTERFACE, NULL) ∧
  Release h0 (HeapPtr l) = Some (h, 0) ∧
  Factory_CreateInstance malloc h this NULL riid ppv = Some (h, E_NOINTERFACE, NULL) ∧
  h !! l = None.
Proof.
  intros Hm Hno h0. pose proof (malloc_fresh _ _ Hm) as Hnew.
  split; [by apply QueryInterface_unsupported|].
  split; [unfold h0; rewrite Release_last_reference; by rewrite delete_id|].
  split; [|exact Hnew].
  rewrite (Factory_CreateInstance_unsupported _ _ _ _ _ _ Hm Hno).
  by rewrite delete_id.
Qed.

End FreshAllocator.

Lemma Factory_CreateInstance_hands_over_sole_reference_witness :
  (one_block_malloc ∅ = Some 1%positive ∧
   calculator_supports IID_ICalculator ∧
   Factory_CreateInstance one_block_malloc ∅ addr_SimpleClassFactory NULL
     IID_ICalculator NULL =
     Some (<[1%positive := new_SimpleCalculator]> ∅, S_OK, HeapPtr 1) ∧
   Release (<[1%positive := new_SimpleCalculator]> ∅) (HeapPtr 1) = Some (∅, 0)) ∧
  (failing_malloc ∅ = None ∧
   Factory_CreateInstance failing_malloc ∅ addr_SimpleClassFactory NULL
     IID_ICalculator NULL = Some (∅, E_OUTOFMEMORY, NULL)).
Proof.
  assert (Hm : one_block_malloc ∅ = Some 1%positive) by reflexivity.
  assert (Hs : calculator_supports IID_ICalculator) by (right; reflexivity).
  assert (Hf : failing_malloc ∅ = None) by reflexivity.
  pose proof (proj1 (Factory_CreateInstance_hands_over_sole_reference
    one_block_malloc one_block_malloc_fresh
    ∅ addr_SimpleClassFactory IID_ICalculator NULL) 1%positive Hm Hs) as Hok.
  pose proof (proj2 (Factory_CreateInstance_hands_over_sole_reference
    failing_malloc failing_malloc_fresh
    ∅ addr_SimpleClassFactory IID_ICalculator NULL) Hf) as Hoom.
  cbv zeta in Hok.
  split.
  - split; [exact Hm|]. split; [exact Hs|].
    split; [exact (proj1 (proj2 (proj2 (proj2 (proj2 Hok)))))|].
    exact (proj2 (proj2 (proj2 (proj2 (proj2 Hok))))).
  - split; [exact Hf|]. exact (proj1 Hoom).
Defined.

Lemma Factory_CreateInstance_unsupported_frees_witness :
  one_block_malloc ∅ = Some 1%positive ∧
  ¬ calculator_supports IID_IClassFactory ∧
  Factory_CreateInstance one_block_malloc ∅ addr_SimpleClassFactory NULL
    IID_IClassFactory (HostPtr 9) = Some (∅, E_NOINTERFACE, NULL).
Proof.
  assert (Hm : one_block_malloc ∅ = Some 1%positive) by reflexivity.
  assert (Hno : ¬ calculator_supports IID_IClassFactory)
    by (intros [H | H]; discriminate H).
  split; [exact Hm|]. split; [exact Hno|].
  exact (proj1 (proj2 (proj2 (Factory_CreateInstance_unsupported_frees
    one_block_malloc one_block_malloc_fresh
    ∅ addr_SimpleClassFactory IID_IClassFactory (HostPtr 9) 1%positive Hm Hno)))).
Defined.

(** *** Status codes *)

Lemma failure_codes_elem (hr : HRESULT) :
  hr ∈ failure_codes ↔
  hr = E_NOINTERFACE ∨ hr = CLASS_E_NOAGGREGATION ∨
  hr = E_OUTOFMEMORY ∨ hr = CLASS_E_CLASSNOTAVAILABLE.
Proof.
  unfold failure_codes. rewrite !elem_of_cons, elem_of_nil. tauto.
Qed.

Lemma run_status_explained (malloc : Heap → option positive)
    (h : Heap) (c : call) (ppv : ptr) (h' : Heap) (hr : HRESULT) (out : ptr) :
  run malloc h c ppv = Some (h', hr, out) → status_explained malloc h c hr.
Proof.
  destruct c as [this riid | this riid | this pUnkOuter riid | this fLock
                | rclsid riid | ]; cbn [run status_explained].
  - destruct (decide (calculator_supports riid)) as [Hs | Hno].
    + unfold QueryInterface. rewrite (calculator_supports_test _ Hs).
      intros Hrun. left. split; [exact Hs|].
      destruct (load_lpVtbl h this) as [v|]; [|discriminate].
      cbn [mbind option_bind] in Hrun.
      destruct (slot_AddRef v h this) as [[h1 n]|]; [|discriminate].
      by injection Hrun as _ <- _.
    + rewrite (QueryInterface_unsupported _ _ _ _ Hno).
      intros [= _ <- _]. right. by split.
  - destruct (decide (factory_supports riid)) as [Hs | Hno].
    + rewrite (Factory_QueryInterface_supported _ _ _ _ Hs).
      intros [= _ <- _]. left. by split.
    + rewrite (Factory_QueryInterface_unsupported _ _ _ _ Hno).
      intros [= _ <- _]. right. by split.
  - destruct (decide (pUnkOuter = NULL)) as [-> | Hout].
    + destruct (malloc h) as [l|] eqn:Hm.
      * destruct (decide (calculator_supports riid)) as [Hs | Hno].
        -- rewrite (Factory_CreateInstance_supported _ _ _ _ _ _ Hm Hs).
           intros [= _ <- _]. right; right; left. by repeat split.
        -- rewrite (Factory_CreateInstance_unsupported _ _ _ _ _ _ Hm Hno).
           intros [= _ <- _]. right; right; right. by repeat split.
      * rewrite (Factory_CreateInstance_no_memory _ _ _ _ _ Hm).
        intros [= _ <- _]. right; left. by repeat split.
    + rewrite (Factory_CreateInstance_aggregation _ _ _ _ _ _ Hout).
      intros [= _ <- _]. left. by split.
  - by intros [= _ <- _].
  - destruct (decide (rclsid = CLSID_SimpleCalculator)) as [-> | Hne].
    + rewrite DllGetClassObject_known_class.
      destruct (decide (factory_supports riid)) as [Hs | Hno].
      * rewrite (Factory_QueryInterface_supported _ _ _ _ Hs).
        intros [= _ <- _]. right; left. by repeat split.
      * rewrite (Factory_QueryInterface_unsupported _ _ _ _ Hno).
        intros [= _ <- _]. right; right. by repeat split.
    + rewrite (DllGetClassObject_unknown_class _ _ _ _ Hne).
      intros [= _ <- _]. left. by split.
  - by intros [= _ <- _].
Qed.

Lemma status_explained_codes (malloc : Heap → option positive)
    (h : Heap) (c : call) (hr : HRESULT) :
  status_explained malloc h c hr →
  hr = S_OK ∨ hr = S_FALSE ∨ hr ∈ failure_codes.
Proof.
  rewrite failure_codes_elem.
  destruct c; cbn [status_explained]; intros Hex;
    repeat match goal with
           | H : _ ∨ _ |- _ => destruct H
           | H : _ ∧ _ |- _ => destruct H
           end; subst; tauto.
Qed.

Lemma failure_codes_attained (hr : HRESULT) :
  hr ∈ failure_codes →
  ∃ (malloc : Heap → option positive) (c : call),
    run malloc ∅ c NULL = Some (∅, hr, NULL).
Proof.
  rewrite failure_codes_elem. intros [-> | [-> | [-> | ->]]].
  - exists failing_malloc, (Call_QueryInterface NULL IID_IClassFactory). reflexivity.
  - exists failing_malloc,
      (Call_Factory_CreateInstance addr_SimpleClassFactory (HostPtr 1) IID_IUnknown).
    reflexivity.
  - exists failing_malloc,
      (Call_Factory_CreateInstance addr_SimpleClassFactory NULL IID_IUnknown).
    reflexivity.
  - exists failing_malloc, (Call_DllGetClassObject IID_IUnknown IID_IUnknown).
    reflexivity.
Qed.

(** C4 (as amended).  Every call that reports a status reports success
    ([S_OK], or the constant [S_FALSE] of [DllCanUnloadNow]) or one of
    exactly four failure codes, each tied to one condition: [E_NOINTERFACE]
    to a capability query for an unsupported identifier,
    [CLASS_E_NOAGGREGATION] to a non-null outer object, [E_OUTOFMEMORY] to a
    failed allocation, and [CLASS_E_CLASSNOTAVAILABLE] to a class identifier
    other than the known one.  The four codes are distinct failures, each is
    returned on some path, and no path returns any other. *)
Theorem four_failure_codes :
  (∀ (malloc : Heap → option positive) (h : Heap) (c : call) (ppv : ptr)
     (h' : Heap) (hr : HRESULT) (out : ptr),
     run malloc h c ppv = Some (h', hr, out) →
     status_explained malloc h c hr ∧
     (hr = S_OK ∨ hr = S_FALSE ∨ hr ∈ failure_codes)) ∧
  SUCCEEDED S_OK = true ∧ SUCCEEDED S_FALSE = true ∧
  Forall (λ hr, FAILED hr = true) failure_codes ∧
  NoDup failure_codes ∧
  length failure_codes = 4%nat ∧
  (∀ hr : HRESULT, hr ∈ failure_codes →
     ∃ (malloc : Heap → option positive) (c : call),
       run malloc ∅ c NULL = Some (∅, hr, NULL)).
Proof.
  split.
  { intros malloc h c ppv h' hr out Hrun.
    pose proof (run_status_explained _ _ _ _ _ _ _ Hrun) as Hex.
    split; [exact Hex|]. by eapply status_explained_codes. }
  split; [reflexivity|]. split; [reflexivity|].
  split; [by repeat constructor|].
  split.
  { unfold failure_codes. repeat constructor; rewrite ?elem_of_cons, ?elem_of_nil;
      intros Hin; repeat destruct Hin as [Hin | Hin]; try discriminate Hin; done. }
  split; [reflexivity|]. apply failure_codes_attained.
Qed.

Lemma four_failure_codes_witness :
  run failing_malloc ∅ (Call_DllGetClassObject IID_ICalculator IID_IUnknown) NULL =
    Some (∅, CLASS_E_CLASSNOTAVAILABLE, NULL) ∧
  status_explained failing_malloc ∅
    (Call_DllGetClassObject IID_ICalculator IID_IUnknown) CLASS_E_CLASSNOTAVAILABLE.
Proof.
  assert (Hrun : run failing_malloc ∅
                   (Call_DllGetClassObject IID_ICalculator IID_IUnknown) NULL =
                 Some (∅, CLASS_E_CLASSNOTAVAILABLE, NULL)) by reflexivity.
  split; [exact Hrun|].
  exact (proj1 (proj1 four_failure_codes _ _ _ _ _ _ _ Hrun)).
Defined.

(** C4 as worded fails: asked for a class it does not know,
    [DllGetClassObject] returns [CLASS_E_CLASSNOTAVAILABLE], a failure code
    that is none of the three the claim allows. *)
Lemma DllGetClassObject_returns_fourth_failure :
  DllGetClassObject ∅ IID_ICalculator IID_IUnknown NULL =
    Some (∅, CLASS_E_CLASSNOTAVAILABLE, NULL) ∧
  FAILED CLASS_E_CLASSNOTAVAILABLE = true ∧
  ¬ (∀ (malloc : Heap → option positive) (h : Heap) (c : call) (ppv : ptr)
       (h' : Heap) (hr : HRESULT) (out : ptr),
       run malloc h c ppv = Some (h', hr, out) →
       SUCCEEDED hr = true ∨
       hr = E_NOINTERFACE ∨ hr = CLASS_E_NOAGGREGATION ∨ hr = E_OUTOFMEMORY).
Proof.
  split; [reflexivity|]. split; [reflexivity|].
  intros Hclaim.
  destruct (Hclaim failing_malloc ∅
              (Call_DllGetClassObject IID_ICalculator IID_IUnknown) NULL
              ∅ CLASS_E_CLASSNOTAVAILABLE NULL eq_refl)
    as [H | [H | [H | H]]]; discriminate H.
Qed.

(** ** Further properties of the code *)

(** *** More 32-bit arithmetic *)

Lemma to_LONG_add_l (x y : Z) : to_LONG (to_LONG x + y) = to_LONG (x + y).
Proof.
  unfold to_LONG. f_equal.
  replace ((x + 2 ^ 31) mod 2 ^ 32 - 2 ^ 31 + y + 2 ^ 31)
    with ((x + 2 ^ 31) mod 2 ^ 32 + y) by lia.
  rewrite Zplus_mod_idemp_l. f_equal. lia.
Qed.


Lemma to_ULONG_small (x : Z) : 0 ≤ x ≤ LONG_MAX → to_ULONG x = x.
Proof.
  unfold LONG_MAX, to_ULONG. intros Hx. apply Z.mod_small. lia.
Qed.

Lemma to_ULONG_zero (x : Z) : is_LONG x → to_ULONG x = 0 ↔ x = 0.
Proof.
  unfold is_LONG, LONG_MIN, LONG_MAX, to_ULONG. intros Hx. split.
  - intros Hz. destruct (Z.neg_nonneg_cases x) as [Hneg | Hpos].
    + replace x with (x + 2 ^ 32 - 1 * 2 ^ 32) in Hz by lia.
      rewrite Zminus_mod, Z_mod_mult, Z.sub_0_r, Zmod_mod in Hz.
      rewrite Z.mod_small in Hz; lia.
    + rewrite Z.mod_small in Hz; lia.
  - by intros ->.
Qed.

Lemma InterlockedDecrement_Increment (c : Z) :
  is_LONG c → InterlockedDecrement (InterlockedIncrement c) = c.
Proof.
  intros Hc. unfold InterlockedDecrement, InterlockedIncrement.
  replace (to_LONG (c + 1) - 1) with (to_LONG (c + 1) + -1) by lia.
  rewrite to_LONG_add_l. replace (c + 1 + -1) with c by lia.
  by apply to_LONG_id.
Qed.

Lemma InterlockedDecrement_zero (c : Z) :
  is_LONG c → InterlockedDecrement c = 0 ↔ c = 1.
Proof.
  intros Hc. split; [|by intros ->].
  destruct (decide (c = LONG_MIN)) as [-> | Hne]; [discriminate|].
  rewrite InterlockedDecrement_above_min; [lia | done |].
  unfold is_LONG in Hc. lia.
Qed.

Lemma InterlockedDecrement_range (c : Z) : is_LONG (InterlockedDecrement c).
Proof. apply to_LONG_range. Qed.

(** *** Retain and release on a live Calculator *)

(** X1.  [AddRef] on a live Calculator whose count [c] is non-negative and
    below [LONG_MAX] stores [c + 1], returns [c + 1], and touches no other
    block. *)
Theorem AddRef_counts_one_more (h : Heap) (l : positive) (c : Z) :
  calculator_at h l c → 0 ≤ c < LONG_MAX →
  ∃ h' : Heap,
    AddRef h (HeapPtr l) = Some (h', c + 1) ∧
    calculator_at h' l (c + 1) ∧
    ∀ l' : positive, l' ≠ l → h' !! l' = h !! l'.
Proof.
  intros Hl Hc.
  assert (Hinc : InterlockedIncrement c = c + 1).
  { apply InterlockedIncrement_below_max; [|lia].
    unfold is_LONG, LONG_MIN, LONG_MAX in *. lia. }
  eexists. rewrite (AddRef_live _ _ _ Hl), Hinc.
  rewrite to_ULONG_small by lia.
  split; [reflexivity|]. split; [apply lookup_insert_eq|].
  intros l' Hne. by apply lookup_insert_ne.
Qed.

Lemma AddRef_counts_one_more_witness :
  let h : Heap := {[ 5%positive := mkSimpleCalculator CalculatorVtbl 3 ]} in
  calculator_at h 5 3 ∧ 0 ≤ 3 < LONG_MAX ∧
  ∃ h' : Heap, AddRef h (HeapPtr 5) = Some (h', 3 + 1) ∧ calculator_at h' 5 (3 + 1).
Proof.
  intros h.
  assert (Hl : calculator_at h 5 3) by reflexivity.
  assert (Hc : 0 ≤ 3 < LONG_MAX) by (unfold LONG_MAX; lia).
  split; [exact Hl|]. split; [exact Hc|].
  destruct (AddRef_counts_one_more h 5 3 Hl Hc) as (h' & Hcall & Hat & _).
  exists h'. split; [exact Hcall | exact Hat].
Defined.

(** X2.  [Release] on a live Calculator always returns; it returns 0 exactly
    when the count was 1, and that is exactly when it frees the block.  With
    a count above 1 the block stays alive with the count lowered by one,
    which is also the value returned.  No other block is touched. *)
Theorem Release_frees_exactly_at_last_reference (h : Heap) (l : positive) (c : Z) :
  calculator_at h l c → is_LONG c →
  ∃ (h' : Heap) (n : Z),
    Release h (HeapPtr l) = Some (h', n) ∧
    (n = 0 ↔ c = 1) ∧
    (h' !! l = None ↔ c = 1) ∧
    (1 < c → n = c - 1 ∧ calculator_at h' l (c - 1)) ∧
    ∀ l' : positive, l' ≠ l → h' !! l' = h !! l'.
Proof.
  intros Hl Hc. rewrite (Release_live _ _ _ Hl).
  pose proof (InterlockedDecrement_range c) as Hr.
  pose proof (to_ULONG_zero _ Hr) as Hz.
  pose proof (InterlockedDecrement_zero _ Hc) as Hd.
  do 2 eexists. split; [reflexivity|].
  split; [by rewrite Hz, Hd|].
  destruct (decide (c = 1)) as [-> | Hne].
  - change (to_ULONG (InterlockedDecrement 1) =? 0) with true. cbn match.
    split; [by rewrite lookup_delete_eq|]. split; [lia|].
    intros l' Hl'. by rewrite lookup_delete_ne.
  - assert (Hnz : to_ULONG (InterlockedDecrement c) ≠ 0) by (rewrite Hz, Hd; done).
    apply Z.eqb_neq in Hnz. rewrite Hnz.
    split; [rewrite lookup_insert_eq; split; [discriminate | done]|].
    split.
    + intros Hgt.
      assert (Hdec : InterlockedDecrement c = c - 1).
      { apply InterlockedDecrement_above_min; [done|]. unfold LONG_MIN. lia. }
      rewrite Hdec. split; [|apply lookup_insert_eq].
      apply to_ULONG_small. unfold is_LONG, LONG_MAX in *. lia.
    + intros l' Hl'. by rewrite lookup_insert_ne.
Qed.

Lemma Release_frees_exactly_at_last_reference_witness :
  let h : Heap := {[ 5%positive := mkSimpleCalculator CalculatorVtbl 3 ]} in
  calculator_at h 5 3 ∧ is_LONG 3 ∧
  ∃ (h' : Heap) (n : Z),
    Release h (HeapPtr 5) = Some (h', n) ∧ (n = 0 ↔ 3 = 1).
Proof.
  intros h.
  assert (Hl : calculator_at h 5 3) by reflexivity.
  assert (Hc : is_LONG 3) by (unfold is_LONG, LONG_MIN, LONG_MAX; lia).
  split; [exact Hl|]. split; [exact Hc|].
  destruct (Release_frees_exactly_at_last_reference h 5 3 Hl Hc)
    as (h' & n & Hcall & Hzero & _).
  exists h', n. split; [exact Hcall | exact Hzero].
Defined.

(** X3.  A retain followed by a release on a live Calculator whose count is
    not 0 gives back the heap exactly as it was, and the release returns the
    original count (as a [ULONG]); this holds even across the wrap at
    [LONG_MAX]. *)
Theorem AddRef_then_Release_restores (h : Heap) (l : positive) (c : Z) :
  calculator_at h l c → is_LONG c → c ≠ 0 →
  ('(h1, _) ← AddRef h (HeapPtr l); Release h1 (HeapPtr l)) =
    Some (h, to_ULONG c).
Proof.
  intros Hl Hc Hnz. rewrite (AddRef_live _ _ _ Hl). cbn [mbind option_bind].
  rewrite (Release_live _ l (InterlockedIncrement c)) by apply lookup_insert_eq.
  rewrite InterlockedDecrement_Increment by done.
  assert (Hu : to_ULONG c ≠ 0) by (by rewrite to_ULONG_zero).
  apply Z.eqb_neq in Hu. rewrite Hu.
  rewrite insert_insert_eq. by rewrite (insert_id _ _ _ Hl).
Qed.

Lemma AddRef_then_Release_restores_witness :
  let h : Heap := {[ 5%positive := mkSimpleCalculator CalculatorVtbl LONG_MAX ]} in
  calculator_at h 5 LONG_MAX ∧ is_LONG LONG_MAX ∧ LONG_MAX ≠ 0 ∧
  ('(h1, _) ← AddRef h (HeapPtr 5); Release h1 (HeapPtr 5)) =
    Some (h, to_ULONG LONG_MAX).
Proof.
  intros h.
  assert (Hl : calculator_at h 5 LONG_MAX) by reflexivity.
  assert (Hc : is_LONG LONG_MAX) by (unfold is_LONG, LONG_MIN, LONG_MAX; lia).
  assert (Hnz : LONG_MAX ≠ 0) by discriminate.
  split; [exact Hl|]. split; [exact Hc|]. split; [exact Hnz|].
  exact (AddRef_then_Release_restores h 5 LONG_MAX Hl Hc Hnz).
Defined.

(** X4.  A successful capability query followed by a release of the pointer
    it returned gives back the heap exactly as it was: the reference taken
    by [QueryInterface] is the one [Release] drops. *)
Theorem QueryInterface_then_Release_restores
    (h : Heap) (l : positive) (c : Z) (riid : GUID) (ppv : ptr) :
  calculator_at h l c → is_LONG c → c ≠ 0 → calculator_supports riid →
  ('(h1, hr, out) ← QueryInterface h (HeapPtr l) riid ppv;
   '(h2, n) ← Release h1 out;
   Some (h2, hr, out, n)) =
    Some (h, S_OK, HeapPtr l, to_ULONG c).
Proof.
  intros Hl Hc Hnz Hs. rewrite (QueryInterface_live _ _ _ _ ppv Hl Hs).
  cbn [mbind option_bind].
  rewrite (Release_live _ l (InterlockedIncrement c)) by apply lookup_insert_eq.
  rewrite InterlockedDecrement_Increment by done.
  assert (Hu : to_ULONG c ≠ 0) by (by rewrite to_ULONG_zero).
  apply Z.eqb_neq in Hu. rewrite Hu.
  rewrite insert_insert_eq. by rewrite (insert_id _ _ _ Hl).
Qed.

Lemma QueryInterface_then_Release_restores_witness :
  let h : Heap := {[ 5%positive := mkSimpleCalculator CalculatorVtbl 1 ]} in
  calculator_at h 5 1 ∧ is_LONG 1 ∧ 1 ≠ 0 ∧ calculator_supports IID_IUnknown ∧
  ('(h1, hr, out) ← QueryInterface h (HeapPtr 5) IID_IUnknown NULL;
   '(h2, n) ← Release h1 out;
   Some (h2, hr, out, n)) =
    Some (h, S_OK, HeapPtr 5, to_ULONG 1).
Proof.
  intros h.
  assert (Hl : calculator_at h 5 1) by reflexivity.
  assert (Hc : is_LONG 1) by (unfold is_LONG, LONG_MIN, LONG_MAX; lia).
  assert (Hnz : (1 : Z) ≠ 0) by discriminate.
  assert (Hs : calculator_supports IID_IUnknown) by (left; reflexivity).
  split; [exact Hl|]. split; [exact Hc|]. split; [exact Hnz|]. split; [exact Hs|].
  exact (QueryInterface_then_Release_restores h 5 1 IID_IUnknown NULL Hl Hc Hnz Hs).
Defined.

(** *** Several references *)

Lemma repeat_call_add (n m : nat) (f : Heap → ptr → option (Heap * Z))
    (h : Heap) (this : ptr) :
  repeat_call (n + m) f h this =
    h1 ← repeat_call n f h this; repeat_call m f h1 this.
Proof.
  revert h. induction n as [|n IH]; intros h; [reflexivity|].
  cbn [Nat.add repeat_call].
  destruct (f h this) as [[h1 k]|]; [|reflexivity].
  cbn [mbind option_bind]. apply IH.
Qed.

Lemma Release_above_one (h : Heap) (l : positive) (c : Z) :
  calculator_at h l c → 1 < c ≤ LONG_MAX →
  Release h (HeapPtr l) =
    Some (<[l := mkSimpleCalculator CalculatorVtbl (c - 1)]> h, c - 1).
Proof.
  intros Hl Hc. rewrite (Release_live _ _ _ Hl).
  rewrite InterlockedDecrement_above_min;
    [| unfold is_LONG, LONG_MIN, LONG_MAX in *; lia | unfold LONG_MIN; lia].
  rewrite to_ULONG_small by lia.
  destruct (Z.eqb_spec (c - 1) 0); [lia | reflexivity].
Qed.

Lemma Release_at_one (h : Heap) (l : positive) :
  calculator_at h l 1 → Release h (HeapPtr l) = Some (delete l h, 0).
Proof. intros Hl. by rewrite (Release_live _ _ _ Hl). Qed.

Lemma repeat_AddRef (n : nat) (l : positive) :
  ∀ (h : Heap) (c : Z),
    calculator_at h l c → is_LONG c → c + Z.of_nat n ≤ LONG_MAX →
    repeat_call n AddRef h (HeapPtr l) =
      Some (<[l := mkSimpleCalculator CalculatorVtbl (c + Z.of_nat n)]> h).
Proof.
  induction n as [|n IH]; intros h c Hl Hc Hmax.
  - cbn [repeat_call]. rewrite Z.add_0_r. by rewrite (insert_id _ _ _ Hl).
  - cbn [repeat_call]. rewrite (AddRef_live _ _ _ Hl).
    rewrite InterlockedIncrement_below_max by (done || lia).
    cbn [mbind option_bind].
    rewrite (IH _ (c + 1)).
    + rewrite insert_insert_eq. do 3 f_equal. lia.
    + apply lookup_insert_eq.
    + unfold is_LONG in *. lia.
    + lia.
Qed.

Lemma repeat_Release_some (n : nat) (l : positive) :
  ∀ (h : Heap) (c : Z),
    calculator_at h l c → Z.of_nat n < c ≤ LONG_MAX →
    repeat_call n Release h (HeapPtr l) =
      Some (<[l := mkSimpleCalculator CalculatorVtbl (c - Z.of_nat n)]> h).
Proof.
  induction n as [|n IH]; intros h c Hl Hc.
  - cbn [repeat_call]. rewrite Z.sub_0_r. by rewrite (insert_id _ _ _ Hl).
  - cbn [repeat_call]. rewrite (Release_above_one _ _ _ Hl) by lia.
    cbn [mbind option_bind].
    rewrite (IH _ (c - 1)).
    + rewrite insert_insert_eq. do 3 f_equal. lia.
    + apply lookup_insert_eq.
    + lia.
Qed.

Lemma repeat_Release_all (n : nat) (l : positive) :
  ∀ (h : Heap) (c : Z),
    calculator_at h l c → c = Z.of_nat (S n) → c ≤ LONG_MAX →
    repeat_call (S n) Release h (HeapPtr l) = Some (delete l h).
Proof.
  induction n as [|n IH]; intros h c Hl Hc Hmax.
  - cbn [repeat_call]. subst c. rewrite (Release_at_one _ _ Hl). reflexivity.
  - cbn [repeat_call]. rewrite (Release_above_one _ _ _ Hl) by lia.
    cbn [mbind option_bind].
    change (repeat_call (S n) Release
              (<[l := mkSimpleCalculator CalculatorVtbl (c - 1)]> h) (HeapPtr l) =
            Some (delete l h)).
    rewrite (IH _ (c - 1)).
    + by rewrite delete_insert_eq.
    + apply lookup_insert_eq.
    + lia.
    + lia.
Qed.

(** X5.  Reference counting is balanced: on a live Calculator with a
    positive count [c], [n] retains followed by [n] releases give back the
    heap exactly as it was, provided the count never has to exceed
    [LONG_MAX]; in between the count stands at [c + n]. *)
Theorem retains_then_releases_restore (h : Heap) (l : positive) (c : Z) (n : nat) :
  calculator_at h l c → 1 ≤ c → c + Z.of_nat n ≤ LONG_MAX →
  (∃ h1 : Heap,
     repeat_call n AddRef h (HeapPtr l) = Some h1 ∧
     calculator_at h1 l (c + Z.of_nat n)) ∧
  (h1 ← repeat_call n AddRef h (HeapPtr l); repeat_call n Release h1 (HeapPtr l)) =
    Some h.
Proof.
  intros Hl Hc Hmax.
  assert (Hlong : is_LONG c) by (unfold is_LONG, LONG_MIN, LONG_MAX in *; lia).
  rewrite (repeat_AddRef n l h c Hl Hlong Hmax). split.
  - eexists. split; [reflexivity | apply lookup_insert_eq].
  - cbn [mbind option_bind].
    rewrite (repeat_Release_some n l _ (c + Z.of_nat n));
      [| apply lookup_insert_eq | lia].
    rewrite insert_insert_eq.
    replace (c + Z.of_nat n - Z.of_nat n) with c by lia.
    by rewrite (insert_id _ _ _ Hl).
Qed.

Lemma retains_then_releases_restore_witness :
  let h : Heap := {[ 5%positive := mkSimpleCalculator CalculatorVtbl 1 ]} in
  calculator_at h 5 1 ∧ 1 ≤ 1 ∧ 1 + Z.of_nat 3 ≤ LONG_MAX ∧
  (h1 ← repeat_call 3 AddRef h (HeapPtr 5); repeat_call 3 Release h1 (HeapPtr 5)) =
    Some h.
Proof.
  intros h.
  assert (Hl : calculator_at h 5 1) by reflexivity.
  assert (Hc : 1 ≤ 1) by lia.
  assert (Hmax : 1 + Z.of_nat 3 ≤ LONG_MAX) by (unfold LONG_MAX; lia).
  split; [exact Hl|]. split; [exact Hc|]. split; [exact Hmax|].
  exact (proj2 (retains_then_releases_restore h 5 1 3 Hl Hc Hmax)).
Defined.

(** X6.  The lifetime of an instance is its count: a live Calculator with
    count [c] (positive, at most [LONG_MAX]) survives any fewer than [c]
    releases, with the count lowered by their number; the [c]-th release
    frees the block and leaves every other block alone; one release more is
    a use of freed memory, which is undefined. *)
Theorem instance_lives_for_count_releases (h : Heap) (l : positive) (c : Z) :
  calculator_at h l c → 1 ≤ c ≤ LONG_MAX →
  (∀ k : nat, Z.of_nat k < c →
     ∃ h' : Heap,
       repeat_call k Release h (HeapPtr l) = Some h' ∧
       calculator_at h' l (c - Z.of_nat k)) ∧
  repeat_call (Z.to_nat c) Release h (HeapPtr l) = Some (delete l h) ∧
  repeat_call (S (Z.to_nat c)) Release h (HeapPtr l) = None.
Proof.
  intros Hl Hc.
  assert (Hall : repeat_call (Z.to_nat c) Release h (HeapPtr l) = Some (delete l h)).
  { destruct (Z.to_nat c) as [|n] eqn:Hn; [lia|].
    apply (repeat_Release_all n l h c Hl); lia. }
  split; [|split; [exact Hall|]].
  - intros k Hk. eexists.
    rewrite (repeat_Release_some k l h c Hl) by lia.
    split; [reflexivity | apply lookup_insert_eq].
  - replace (S (Z.to_nat c)) with (Z.to_nat c + 1)%nat by lia.
    rewrite repeat_call_add, Hall. cbn [mbind option_bind repeat_call Release].
    by rewrite lookup_delete_eq.
Qed.

Lemma instance_lives_for_count_releases_witness :
  let h : Heap := {[ 5%positive := mkSimpleCalculator CalculatorVtbl 2 ]} in
  calculator_at h 5 2 ∧ 1 ≤ 2 ≤ LONG_MAX ∧
  repeat_call (Z.to_nat 2) Release h (HeapPtr 5) = Some (delete 5%positive h).
Proof.
  intros h.
  assert (Hl : calculator_at h 5 2) by reflexivity.
  assert (Hc : 1 ≤ 2 ≤ LONG_MAX) by (unfold LONG_MAX; lia).
  split; [exact Hl|]. split; [exact Hc|].
  exact (proj1 (proj2 (instance_lives_for_count_releases h 5 2 Hl Hc))).
Defined.

(** *** An invariant of the heap *)

Lemma heap_ok_lookup (h : Heap) (l : positive) (o : SimpleCalculator) :
  heap_ok h → h !! l = Some o →
  calculator_at h l (count o) ∧ 1 ≤ count o ≤ LONG_MAX.
Proof.
  intros Hok Hl. destruct (Hok l o Hl) as [Hv Hc].
  split; [|exact Hc]. unfold calculator_at. rewrite Hl.
  destruct o as [v c]. cbn in *. by subst v.
Qed.

Lemma Release_keeps_heap_ok (h : Heap) (this : ptr) (h' : Heap) (n : Z) :
  heap_ok h → Release h this = Some (h', n) → heap_ok h'.
Proof.
  intros Hok Hrel. destruct this as [| |l|]; try discriminate.
  destruct (h !! l) as [o|] eqn:Hl;
    [|by cbn [Release] in Hrel; rewrite Hl in Hrel].
  destruct (heap_ok_lookup _ _ _ Hok Hl) as [Hat Hc].
  destruct (decide (count o = 1)) as [Hone | Hmore].
  - rewrite Hone in Hat. rewrite (Release_at_one _ _ Hat) in Hrel.
    injection Hrel as <- _. by apply map_Forall_delete.
  - rewrite (Release_above_one _ _ _ Hat) in Hrel by lia.
    injection Hrel as <- _. apply map_Forall_insert_2; [|done].
    cbn. split; [done | lia].
Qed.

Lemma AddRef_keeps_heap_ok (h : Heap) (this : ptr) (h' : Heap) (n : Z) :
  heap_ok h → counts_below_max h → AddRef h this = Some (h', n) → heap_ok h'.
Proof.
  intros Hok Hbelow Hadd. destruct this as [| |l|]; try discriminate.
  destruct (h !! l) as [o|] eqn:Hl;
    [|by cbn [AddRef] in Hadd; rewrite Hl in Hadd].
  destruct (heap_ok_lookup _ _ _ Hok Hl) as [Hat Hc].
  pose proof (Hbelow l o Hl) as Hlt. cbn in Hlt.
  rewrite (AddRef_live _ _ _ Hat) in Hadd.
  rewrite InterlockedIncrement_below_max in Hadd;
    [| unfold is_LONG, LONG_MIN; lia | done].
  injection Hadd as <- _. apply map_Forall_insert_2; [|done].
  cbn. split; [done | lia].
Qed.

Lemma QueryInterface_keeps_heap_ok
    (h : Heap) (this : ptr) (riid : GUID) (ppv : ptr)
    (h' : Heap) (hr : HRESULT) (out : ptr) :
  heap_ok h → counts_below_max h →
  QueryInterface h this riid ppv = Some (h', hr, out) → heap_ok h'.
Proof.
  intros Hok Hbelow. unfold QueryInterface.
  destruct (IsEqualGUID riid IID_IUnknown || IsEqualGUID riid IID_ICalculator);
    [|by intros [= <- _ _]].
  destruct this as [| |l|]; cbn [load_lpVtbl]; try discriminate.
  - cbn. by intros [= <- _ _].
  - destruct (h !! l) as [o|] eqn:Hl; [|discriminate].
    destruct (Hok l o Hl) as [Hv _]. cbn in Hv.
    cbn [fmap option_fmap option_map mbind option_bind]. rewrite Hv.
    cbn [slot_AddRef].
    destruct (AddRef h (HeapPtr l)) as [[h1 n]|] eqn:Hadd; [|discriminate].
    cbn [mbind option_bind]. intros [= <- _ _].
    by eapply AddRef_keeps_heap_ok.
Qed.

(** X7.  The heap stays well formed.  If every live block is a Calculator
    with a count between 1 and [LONG_MAX], the same holds after a [Release]
    through any pointer (a block whose count would reach 0 is freed, never
    left behind), after an [AddRef], and after any call that reports a
    status, whatever the allocator does; the retaining calls need every
    count to be below [LONG_MAX] beforehand. *)
Theorem heap_ok_preserved (malloc : Heap → option positive) (h : Heap) :
  heap_ok h →
  (∀ (this : ptr) (h' : Heap) (n : Z),
     Release h this = Some (h', n) → heap_ok h') ∧
  (counts_below_max h →
   (∀ (this : ptr) (h' : Heap) (n : Z),
      AddRef h this = Some (h', n) → heap_ok h') ∧
   (∀ (c : call) (ppv : ptr) (h' : Heap) (hr : HRESULT) (out : ptr),
      run malloc h c ppv = Some (h', hr, out) → heap_ok h')).
Proof.
  intros Hok. split; [intros this h' n; by apply Release_keeps_heap_ok|].
  intros Hbelow. split; [intros this h' n; by apply AddRef_keeps_heap_ok|].
  intros c ppv h' hr out.
  destruct c as [this riid | this riid | this pUnkOuter riid | this fLock
                | rclsid riid | ]; cbn [run].
  - by apply QueryInterface_keeps_heap_ok.
  - unfold Factory_QueryInterface.
    by destruct (_ || _); intros [= <- _ _].
  - destruct (decide (pUnkOuter = NULL)) as [-> | Hout].
    + destruct (malloc h) as [l|] eqn:Hm.
      * destruct (decide (calculator_supports riid)) as [Hs | Hno].
        -- rewrite (Factory_CreateInstance_supported _ _ _ _ _ _ Hm Hs).
           intros [= <- _ _]. apply map_Forall_insert_2; [|done].
           cbn. unfold LONG_MAX. split; [done | lia].
        -- rewrite (Factory_CreateInstance_unsupported _ _ _ _ _ _ Hm Hno).
           intros [= <- _ _]. by apply map_Forall_delete.
      * rewrite (Factory_CreateInstance_no_memory _ _ _ _ _ Hm).
        by intros [= <- _ _].
    + rewrite (Factory_CreateInstance_aggregation _ _ _ _ _ _ Hout).
      by intros [= <- _ _].
  - by intros [= <- _ _].
  - unfold DllGetClassObject. destruct (IsEqualGUID rclsid CLSID_SimpleCalculator).
    + cbn [SimpleClassFactory factory_lpVtbl slot_QueryInterface].
      unfold Factory_QueryInterface.
      by destruct (_ || _); intros [= <- _ _].
    + by intros [= <- _ _].
  - by intros [= <- _ _].
Qed.

Lemma heap_ok_preserved_witness :
  let h : Heap := {[ 5%positive := mkSimpleCalculator CalculatorVtbl 1 ]} in
  heap_ok h ∧ counts_below_max h ∧
  Release h (HeapPtr 5) = Some (∅, 0) ∧ heap_ok ∅ ∧
  run one_block_malloc h
    (Call_Factory_CreateInstance addr_SimpleClassFactory NULL IID_IUnknown) NULL =
    Some (<[1%positive := new_SimpleCalculator]> h, S_OK, HeapPtr 1) ∧
  heap_ok (<[1%positive := new_SimpleCalculator]> h).
Proof.
  intros h.
  assert (Hok : heap_ok h).
  { apply map_Forall_singleton. cbn. unfold LONG_MAX. split; [done | lia]. }
  assert (Hbelow : counts_below_max h).
  { apply map_Forall_singleton. cbn. unfold LONG_MAX. lia. }
  assert (Hrel : Release h (HeapPtr 5) = Some (∅, 0)) by reflexivity.
  assert (Hrun : run one_block_malloc h
            (Call_Factory_CreateInstance addr_SimpleClassFactory NULL IID_IUnknown) NULL =
            Some (<[1%positive := new_SimpleCalculator]> h, S_OK, HeapPtr 1))
    by reflexivity.
  split; [exact Hok|]. split; [exact Hbelow|]. split; [exact Hrel|].
  split; [exact (proj1 (heap_ok_preserved one_block_malloc h Hok) _ _ _ Hrel)|].
  split; [exact Hrun|].
  exact (proj2 (proj2 (heap_ok_preserved one_block_malloc h Hok) Hbelow)
           _ _ _ _ _ Hrun).
Defined.

(** *** Creation, on every path *)

Lemma two_block_malloc_fresh (h : Heap) (l : positive) :
  two_block_malloc h = Some l → h !! l = None.
Proof.
  unfold two_block_malloc.
  destruct (h !! 1%positive) eqn:H1; [|by intros [= <-]].
  destruct (h !! 2%positive) eqn:H2; [discriminate|by intros [= <-]].
Qed.

Section FreshAllocatorMore.

Variable malloc : Heap → option positive.
Hypothesis malloc_fresh : ∀ (h : Heap) (l : positive), malloc h = Some l → h !! l = None.

(** X8.  [Factory_CreateInstance] always returns, whatever its arguments,
    and it either succeeds or leaves the heap as it was: with [S_OK] the heap
    has gained exactly one block, not in use before, holding a Calculator
    with count 1, and [ppv] points to it; with any other status the heap is
    unchanged, so no failure path leaks a block.  In both cases every
    instance that was alive before is alive and unchanged after. *)
Theorem Factory_CreateInstance_succeeds_or_changes_nothing
    (h : Heap) (this pUnkOuter : ptr) (riid : GUID) (ppv : ptr) :
  ∃ (h' : Heap) (hr : HRESULT) (out : ptr),
    Factory_CreateInstance malloc h this pUnkOuter riid ppv = Some (h', hr, out) ∧
    ((hr = S_OK ∧
      ∃ l : positive,
        out = HeapPtr l ∧ h !! l = None ∧ h' = <[l := new_SimpleCalculator]> h) ∨
     (FAILED hr = true ∧ h' = h)) ∧
    ∀ (l' : positive) (o : SimpleCalculator), h !! l' = Some o → h' !! l' = Some o.
Proof.
  destruct (decide (pUnkOuter = NULL)) as [-> | Hout].
  - destruct (malloc h) as [l|] eqn:Hm.
    + pose proof (malloc_fresh _ _ Hm) as Hnew.
      destruct (decide (calculator_supports riid)) as [Hs | Hno].
      * do 3 eexists.
        split; [by apply Factory_CreateInstance_supported|].
        split; [left; split; [done|]; by exists l|].
        intros l' o Hl'. rewrite lookup_insert_ne; [done|]. congruence.
      * do 3 eexists.
        split; [by apply Factory_CreateInstance_unsupported|].
        rewrite delete_id by done. split; [by right | done].
    + do 3 eexists. split; [by apply Factory_CreateInstance_no_memory|].
      split; [by right | done].
  - do 3 eexists. split; [by apply Factory_CreateInstance_aggregation|].
    split; [by right | done].
Qed.

(** X9.  Two creations give two instances.  When two successive calls of
    [Factory_CreateInstance] both succeed, the second returns a block
    different from the first, both instances have count 1, and releasing the
    first frees it while the second stays alive with count 1. *)
Theorem Factory_CreateInstance_twice_distinct
    (h : Heap) (this : ptr) (riid1 riid2 : GUID) (ppv : ptr) (l1 l2 : positive) :
  calculator_supports riid1 → calculator_supports riid2 →
  malloc h = Some l1 →
  malloc (<[l1 := new_SimpleCalculator]> h) = Some l2 →
  let h1 := <[l1 := new_SimpleCalculator]> h in
  let h2 := <[l2 := new_SimpleCalculator]> h1 in
  l1 ≠ l2 ∧
  Factory_CreateInstance malloc h this NULL riid1 ppv = Some (h1, S_OK, HeapPtr l1) ∧
  Factory_CreateInstance malloc h1 this NULL riid2 ppv = Some (h2, S_OK, HeapPtr l2) ∧
  calculator_at h2 l1 1 ∧ calculator_at h2 l2 1 ∧
  ∃ h3 : Heap,
    Release h2 (HeapPtr l1) = Some (h3, 0) ∧
    h3 !! l1 = None ∧ calculator_at h3 l2 1.
Proof.
  intros Hs1 Hs2 Hm1 Hm2 h1 h2.
  assert (Hne : l1 ≠ l2).
  { intros ->. pose proof (malloc_fresh _ _ Hm2) as Hfree.
    by rewrite lookup_insert_eq in Hfree. }
  assert (Hat1 : calculator_at h2 l1 1).
  { unfold calculator_at, h2, h1. rewrite lookup_insert_ne by done.
    apply lookup_insert_eq. }
  split; [exact Hne|].
  split; [by apply Factory_CreateInstance_supported|].
  split; [by apply Factory_CreateInstance_supported|].
  split; [exact Hat1|]. split; [apply lookup_insert_eq|].
  eexists. split; [by apply Release_at_one|].
  split; [apply lookup_delete_eq|].
  unfold calculator_at. rewrite lookup_delete_ne by done. apply lookup_insert_eq.
Qed.

End FreshAllocatorMore.

Lemma Factory_CreateInstance_succeeds_or_changes_nothing_witness :
  ∃ (h' : Heap) (hr : HRESULT) (out : ptr),
    Factory_CreateInstance one_block_malloc
      {[ 1%positive := mkSimpleCalculator CalculatorVtbl 4 ]}
      addr_SimpleClassFactory NULL IID_ICalculator NULL = Some (h', hr, out) ∧
    ∀ (l' : positive) (o : SimpleCalculator),
      ({[ 1%positive := mkSimpleCalculator CalculatorVtbl 4 ]} : Heap) !! l' = Some o →
      h' !! l' = Some o.
Proof.
  destruct (Factory_CreateInstance_succeeds_or_changes_nothing
              one_block_malloc one_block_malloc_fresh
              {[ 1%positive := mkSimpleCalculator CalculatorVtbl 4 ]}
              addr_SimpleClassFactory NULL IID_ICalculator NULL)
    as (h' & hr & out & Hcall & _ & Hframe).
  exists h', hr, out. split; [exact Hcall | exact Hframe].
Defined.

Lemma Factory_CreateInstance_twice_distinct_witness :
  calculator_supports IID_IUnknown ∧ calculator_supports IID_ICalculator ∧
  two_block_malloc ∅ = Some 1%positive ∧
  two_block_malloc (<[1%positive := new_SimpleCalculator]> ∅) = Some 2%positive ∧
  (1 ≠ 2)%positive ∧
  Factory_CreateInstance two_block_malloc (<[1%positive := new_SimpleCalculator]> ∅)
    addr_SimpleClassFactory NULL IID_ICalculator NULL =
    Some (<[2%positive := new_SimpleCalculator]> (<[1%positive := new_SimpleCalculator]> ∅),
          S_OK, HeapPtr 2).
Proof.
  assert (Hs1 : calculator_supports IID_IUnknown) by (left; reflexivity).
  assert (Hs2 : calculator_supports IID_ICalculator) by (right; reflexivity).
  assert (Hm1 : two_block_malloc ∅ = Some 1%positive) by reflexivity.
  assert (Hm2 : two_block_malloc (<[1%positive := new_SimpleCalculator]> ∅) =
                Some 2%positive) by reflexivity.
  pose proof (Factory_CreateInstance_twice_distinct
                two_block_malloc two_block_malloc_fresh
                ∅ addr_SimpleClassFactory IID_IUnknown IID_ICalculator NULL 1 2
                Hs1 Hs2 Hm1 Hm2) as Htwo.
  cbv zeta in Htwo.
  split; [exact Hs1|]. split; [exact Hs2|]. split; [exact Hm1|]. split; [exact Hm2|].
  split; [exact (proj1 Htwo)|].
  exact (proj1 (proj2 (proj2 Htwo))).
Defined.

(** *** The entry point, on every path *)

(** X10.  [DllGetClassObject] always returns and never changes the heap.  It
    returns [S_OK] exactly when the class is [CLSID_SimpleCalculator] and
    the identifier is one the factory supports, and then [ppv] holds the
    address of the static factory.  For the known class and an unsupported
    identifier it returns [E_NOINTERFACE] and nulls [ppv]; for an unknown
    class it returns [CLASS_E_CLASSNOTAVAILABLE] and leaves [ppv] as the
    caller had it. *)
Theorem DllGetClassObject_outcomes (h : Heap) (rclsid riid : GUID) (ppv : ptr) :
  ∃ (hr : HRESULT) (out : ptr),
    DllGetClassObject h rclsid riid ppv = Some (h, hr, out) ∧
    (hr = S_OK ↔ rclsid = CLSID_SimpleCalculator ∧ factory_supports riid) ∧
    (hr = S_OK → out = addr_SimpleClassFactory) ∧
    (rclsid = CLSID_SimpleCalculator → ¬ factory_supports riid →
       hr = E_NOINTERFACE ∧ out = NULL) ∧
    (rclsid ≠ CLSID_SimpleCalculator →
       hr = CLASS_E_CLASSNOTAVAILABLE ∧ out = ppv).
Proof.
  destruct (decide (rclsid = CLSID_SimpleCalculator)) as [-> | Hne].
  - rewrite DllGetClassObject_known_class.
    destruct (decide (factory_supports riid)) as [Hs | Hno].
    + rewrite (Factory_QueryInterface_supported _ _ _ _ Hs).
      do 2 eexists. split; [reflexivity|]. repeat split; try done.
    + rewrite (Factory_QueryInterface_unsupported _ _ _ _ Hno).
      do 2 eexists. split; [reflexivity|].
      split; [split; [discriminate | by intros [_ ?]]|].
      split; [discriminate|]. split; [done|]. done.
  - rewrite (DllGetClassObject_unknown_class _ _ _ _ Hne).
    do 2 eexists. split; [reflexivity|].
    split; [split; [discriminate | by intros [? _]]|].
    split; [discriminate|]. split; [done|]. done.
Qed.

Lemma DllGetClassObject_outcomes_witness :
  IID_ICalculator ≠ CLSID_SimpleCalculator ∧
  ∃ (hr : HRESULT) (out : ptr),
    DllGetClassObject ∅ IID_ICalculator IID_IUnknown (HostPtr 3) = Some (∅, hr, out) ∧
    hr = CLASS_E_CLASSNOTAVAILABLE ∧ out = HostPtr 3.
Proof.
  assert (Hne : IID_ICalculator ≠ CLSID_SimpleCalculator) by discriminate.
  split; [exact Hne|].
  destruct (DllGetClassObject_outcomes ∅ IID_ICalculator IID_IUnknown (HostPtr 3))
    as (hr & out & Hcall & _ & _ & _ & Hunknown).
  exists hr, out. split; [exact Hcall | exact (Hunknown Hne)].
Defined.

(** *** Arithmetic of [Add] *)

(** X11.  What the missing overflow check means: for [int] arguments [Add]
    returns the exact sum when it fits an [int]; a sum above [LONG_MAX]
    comes back lowered by [2^32] (so negative), and a sum below [LONG_MIN]
    comes back raised by [2^32] (so non-negative). *)
Theorem Add_wraps_on_overflow (h : Heap) (this : ptr) (a b : Z) :
  is_LONG a → is_LONG b →
  ∃ r : Z,
    Add h this a b = Some (h, r) ∧
    (is_LONG (a + b) → r = a + b) ∧
    (LONG_MAX < a + b → r = a + b - 2 ^ 32 ∧ r < 0) ∧
    (a + b < LONG_MIN → r = a + b + 2 ^ 32 ∧ 0 ≤ r).
Proof.
  intros Ha Hb. exists (to_int (a + b)). split; [reflexivity|].
  unfold is_LONG, LONG_MIN, LONG_MAX, to_int, to_LONG in *.
  split; [intros Hfit; rewrite Z.mod_small; lia|]. split.
  - intros Hover.
    replace (a + b + 2 ^ 31) with (a + b + 2 ^ 31 - 2 ^ 32 + 1 * 2 ^ 32) by lia.
    rewrite Z_mod_plus_full, Z.mod_small; lia.
  - intros Hunder.
    replace (a + b + 2 ^ 31) with (a + b + 2 ^ 31 + 2 ^ 32 + (-1) * 2 ^ 32) by lia.
    rewrite Z_mod_plus_full, Z.mod_small; lia.
Qed.

Lemma Add_wraps_on_overflow_witness :
  is_LONG LONG_MAX ∧ is_LONG 1 ∧ LONG_MAX < LONG_MAX + 1 ∧
  ∃ r : Z, Add ∅ NULL LONG_MAX 1 = Some (∅, r) ∧ r = LONG_MAX + 1 - 2 ^ 32 ∧ r < 0.
Proof.
  assert (Ha : is_LONG LONG_MAX) by (unfold is_LONG, LONG_MIN, LONG_MAX; lia).
  assert (Hb : is_LONG 1) by (unfold is_LONG, LONG_MIN, LONG_MAX; lia).
  assert (Hover : LONG_MAX < LONG_MAX + 1) by lia.
  split; [exact Ha|]. split; [exact Hb|]. split; [exact Hover|].
  destruct (Add_wraps_on_overflow ∅ NULL LONG_MAX 1 Ha Hb)
    as (r & Hcall & _ & Habove & _).
  exists r. split; [exact Hcall | exact (Habove Hover)].
Defined.


